(** * Notes CRUD API: ownership scoping and optimistic locking

    A shallow embedding of the request handlers of the notes service
    ([app/routers/notes.py], [app/routers/auth.py]), of the request schemas
    ([app/schemas/note.py], [app/schemas/user.py]), of the [Note] table
    ([app/models/note.py]) and of the exception handlers
    ([app/exceptions.py]), followed by the properties the design document
    states about them.

    Conventions.
    - Python [int] is [Z]; [str] is [string], one element per character, so
      that [len] is [String.length]; [Optional[str]] is [option string]; a
      [DateTime] column is an opaque instant, a [Z].
    - A table is the list of its rows in insertion order.  A query
      [db.query(T).filter(p).first()] is [first (filter_by p rows)], and
      [.all()] is the filtered list itself.
    - A handler that receives the SQLAlchemy session [db] takes the database
      as an argument and returns the database after its commit (or the
      database it was given, after a rollback or when it never wrote).
    - [raise HTTPException(...)] is the [Raise] branch of [result].
    - What the database server decides for the handler (the clock read by
      [func.now()], the primary key given to an inserted row, whether the
      commit goes through) is an explicit environment [Env.t]. *)

From stdpp Require Import base option list strings gmap.
From Stdlib Require Import ZArith Lia.

Open Scope string_scope.
Open Scope list_scope.
Open Scope Z_scope.

(** ** JSON values and HTTP plumbing *)

(** Decoded JSON, as the framework hands it to the schema layer and takes it
    back from a handler.  A JSON object is a Python [dict]. *)
#[local] Unset Elimination Schemes.
Inductive json : Type :=
  | JNull
  | JInt (z : Z)
  | JStr (s : string)
  | JArr (l : list json)
  | JObj (m : gmap string json).
#[local] Set Elimination Schemes.

(** [fastapi.HTTPException]; [error_code] is the attribute the subclass
    [CustomHTTPException] adds ([None] on a plain [HTTPException]). *)
Module HTTPException.
Record t : Type := mk {
  status_code : Z;
  detail : string;
  headers : list (string * string);
  error_code : option string
}.
End HTTPException.

(** [fastapi.responses.JSONResponse(status_code=..., content=...)]. *)
Module JSONResponse.
Record t : Type := mk {
  status_code : Z;
  content : gmap string json
}.
End JSONResponse.

(** The status constants of [fastapi.status] used by the handlers. *)
Definition HTTP_200_OK : Z := 200.
Definition HTTP_201_CREATED : Z := 201.
Definition HTTP_400_BAD_REQUEST : Z := 400.
Definition HTTP_401_UNAUTHORIZED : Z := 401.
Definition HTTP_404_NOT_FOUND : Z := 404.
Definition HTTP_409_CONFLICT : Z := 409.
Definition HTTP_422_UNPROCESSABLE_ENTITY : Z := 422.
Definition HTTP_500_INTERNAL_SERVER_ERROR : Z := 500.

(** The outcome of a handler body: the value it returns, or the
    [HTTPException] it raises. *)
Inductive result (A : Type) : Type :=
  | Return (a : A)
  | Raise (e : HTTPException.t).
Arguments Return {A} a.
Arguments Raise {A} e.

Definition http_error (code : Z) (msg : string) : HTTPException.t :=
  HTTPException.mk code msg [] None.

(** ** Tables *)

(** [app/models/note.py], class [Note]. *)
Module Note.
Record t : Type := mk {
  id : Z;
  title : string;
  content : option string;
  user_id : Z;
  version : Z;
  created_at : Z;
  updated_at : Z
}.

(** [Column(Integer, default=1, nullable=False)] *)
Definition version_default : Z := 1.
End Note.

(** The [User] table, with the columns the handlers and tests read. *)
Module User.
Record t : Type := mk {
  id : Z;
  username : string;
  password_hash : string;
  created_at : Z
}.
End User.

Module DB.
Record t : Type := mk {
  notes : list Note.t;
  users : list User.t
}.

(** The database right after [Base.metadata.create_all]. *)
Definition empty : t := mk [] [].
End DB.

(** What the database server contributes to one request. *)
Module Env.
Record t : Type := mk {
  now : Z;            (* the value of [func.now()] *)
  new_id : Z;         (* the primary key given to an inserted row *)
  storage_ok : bool   (* [false]: the flush or commit raises *)
}.
End Env.

(** [query.filter(p)], [query.first()] and [query.all()]. *)
Definition filter_by {A} (p : A -> bool) (rows : list A) : list A :=
  List.filter p rows.

Definition first {A} (rows : list A) : option A := head rows.

Definition all {A} (rows : list A) : list A := rows.

(** ** Request schemas ([app/schemas/note.py]) *)

Module NoteCreate.
Record t : Type := mk {
  title : string;
  content : option string
}.
End NoteCreate.

Module NoteUpdate.
Record t : Type := mk {
  title : string;
  content : option string;
  version : Z
}.
End NoteUpdate.

(** ** Note handlers ([app/routers/notes.py]) *)

(** The filter [Note.id == note_id, Note.user_id == current_user.id]. *)
Definition owned_by (note_id : Z) (current_user : User.t) (n : Note.t) : bool :=
  (Note.id n =? note_id) && (Note.user_id n =? User.id current_user).

Definition has_id (note_id : Z) (n : Note.t) : bool := Note.id n =? note_id.

(** [db.add(db_note); db.commit(); db.refresh(db_note)]: the INSERT fails
    when the storage fails or the primary key is taken. *)
Definition commit_insert (env : Env.t) (row : Note.t) (db : DB.t) : option DB.t :=
  if Env.storage_ok env && negb (existsb (has_id (Note.id row)) (DB.notes db))
  then Some (DB.mk (DB.notes db ++ [row]) (DB.users db))
  else None.

(** The UPDATE the session flushes for a note whose [title], [content] and
    [version] were assigned: these columns and [updated_at]
    ([onupdate=func.now()]) are written to the row with the note's primary
    key. *)
Definition write_row (env : Env.t) (note : Note.t) (r : Note.t) : Note.t :=
  if has_id (Note.id note) r
  then Note.mk (Note.id r) (Note.title note) (Note.content note)
               (Note.user_id r) (Note.version note)
               (Note.created_at r) (Env.now env)
  else r.

(** [db.commit()] after the assignments: it raises when the storage fails or
    the UPDATE matches no row. *)
Definition commit_update (env : Env.t) (note : Note.t) (db : DB.t) : option DB.t :=
  if Env.storage_ok env && existsb (has_id (Note.id note)) (DB.notes db)
  then Some (DB.mk (map (write_row env note) (DB.notes db)) (DB.users db))
  else None.

(** [db.delete(note); db.commit()]. *)
Definition commit_delete (env : Env.t) (note : Note.t) (db : DB.t) : option DB.t :=
  if Env.storage_ok env
  then Some (DB.mk (filter_by (fun r => negb (has_id (Note.id note) r)) (DB.notes db))
                   (DB.users db))
  else None.

Definition create_note (env : Env.t) (note_data : NoteCreate.t)
    (current_user : User.t) (db : DB.t) : result Note.t * DB.t :=
  let db_note :=
    Note.mk (Env.new_id env) (NoteCreate.title note_data)
            (NoteCreate.content note_data) (User.id current_user)
            Note.version_default (Env.now env) (Env.now env) in
  match commit_insert env db_note db with
  | Some db' => (Return db_note, db')
  | None =>
      (Raise (http_error HTTP_500_INTERNAL_SERVER_ERROR "Failed to create note"), db)
  end.

Definition get_user_notes (current_user : User.t) (db : DB.t) : list Note.t :=
  all (filter_by (fun n => Note.user_id n =? User.id current_user) (DB.notes db)).

Definition get_note (note_id : Z) (current_user : User.t) (db : DB.t)
    : result Note.t :=
  match first (filter_by (owned_by note_id current_user) (DB.notes db)) with
  | None => Raise (http_error HTTP_404_NOT_FOUND "Note not found")
  | Some note => Return note
  end.

Definition conflict_detail : string :=
  "Note was modified by another process. Please refresh and try again.".

(** The session's note after [note.title = ...], [note.content = ...],
    [note.version += 1] and the refresh that follows the commit. *)
Definition assign_update (env : Env.t) (note : Note.t)
    (note_update : NoteUpdate.t) : Note.t :=
  Note.mk (Note.id note) (NoteUpdate.title note_update)
          (NoteUpdate.content note_update) (Note.user_id note)
          (Note.version note + 1) (Note.created_at note)
          (Env.now env).

(** The tail of [update_note], from the version check on, for a session
    that holds the loaded [note]. *)
Definition update_loaded (env : Env.t) (note : Note.t)
    (note_update : NoteUpdate.t) (db : DB.t) : result Note.t * DB.t :=
  if negb (Note.version note =? NoteUpdate.version note_update)
  then (Raise (http_error HTTP_409_CONFLICT conflict_detail), db)
  else
    let note' := assign_update env note note_update in
    match commit_update env note' db with
    | Some db' => (Return note', db')
    | None =>
        (Raise (http_error HTTP_500_INTERNAL_SERVER_ERROR "Failed to update note"), db)
    end.

Definition update_note (env : Env.t) (note_id : Z) (note_update : NoteUpdate.t)
    (current_user : User.t) (db : DB.t) : result Note.t * DB.t :=
  match first (filter_by (owned_by note_id current_user) (DB.notes db)) with
  | None => (Raise (http_error HTTP_404_NOT_FOUND "Note not found"), db)
  | Some note => update_loaded env note note_update db
  end.

Definition delete_note (env : Env.t) (note_id : Z) (current_user : User.t)
    (db : DB.t) : result string * DB.t :=
  match first (filter_by (owned_by note_id current_user) (DB.notes db)) with
  | None => (Raise (http_error HTTP_404_NOT_FOUND "Note not found"), db)
  | Some note =>
      match commit_delete env note db with
      | Some db' => (Return "Note deleted successfully", db')
      | None =>
          (Raise (http_error HTTP_500_INTERNAL_SERVER_ERROR "Failed to delete note"), db)
      end
  end.

(** ** Schema validation

    The framework builds [NoteCreate] and [NoteUpdate] from the decoded
    request body before the handler runs.  A field declared with
    [Field(...)] is required, one declared with [Field(None)] defaults to
    [None]; keys the schema does not declare are ignored.  Every failing
    field contributes one entry to [exc.errors()].  A [str] field takes a
    JSON string and an [int] field a JSON integer; what else pydantic's lax
    mode would turn into an [int] (the string ["1"], the float [1.0]) is not
    modelled. *)

Module ErrorDetails.
Record t : Type := mk {
  loc : list string;
  msg : string;
  type : string
}.
End ErrorDetails.

Definition validated (A : Type) : Type := (A + list ErrorDetails.t)%type.

Definition errors_of {A} (v : validated A) : list ErrorDetails.t :=
  match v with inl _ => [] | inr errs => errs end.

Definition field_error (field msg type : string) : list ErrorDetails.t :=
  [ErrorDetails.mk ["body"; field] msg type].

(** [title: str = Field(..., min_length=1, max_length=200)] *)
Definition validate_title (body : gmap string json) : validated string :=
  match body !! "title" with
  | None => inr (field_error "title" "Field required" "missing")
  | Some (JStr s) =>
      if (String.length s <? 1)%nat then
        inr (field_error "title" "String should have at least 1 character"
                         "string_too_short")
      else if (200 <? String.length s)%nat then
        inr (field_error "title" "String should have at most 200 characters"
                         "string_too_long")
      else inl s
  | Some _ => inr (field_error "title" "Input should be a valid string" "string_type")
  end.

(** [content: Optional[str] = Field(None)] *)
Definition validate_content (body : gmap string json) : validated (option string) :=
  match body !! "content" with
  | None => inl None
  | Some JNull => inl None
  | Some (JStr s) => inl (Some s)
  | Some _ => inr (field_error "content" "Input should be a valid string" "string_type")
  end.

(** [version: int = Field(...)] *)
Definition validate_version (body : gmap string json) : validated Z :=
  match body !! "version" with
  | None => inr (field_error "version" "Field required" "missing")
  | Some (JInt z) => inl z
  | Some _ => inr (field_error "version" "Input should be a valid integer" "int_type")
  end.

Definition NoteCreate_validate (body : gmap string json) : validated NoteCreate.t :=
  match validate_title body, validate_content body with
  | inl t, inl c => inl (NoteCreate.mk t c)
  | vt, vc => inr (errors_of vt ++ errors_of vc)
  end.

Definition NoteUpdate_validate (body : gmap string json) : validated NoteUpdate.t :=
  match validate_title body, validate_content body, validate_version body with
  | inl t, inl c, inl v => inl (NoteUpdate.mk t c v)
  | vt, vc, vv => inr (errors_of vt ++ errors_of vc ++ errors_of vv)
  end.

(** ** Exception handlers ([app/exceptions.py]) *)

Definition http_exception_handler (exc : HTTPException.t) : JSONResponse.t :=
  let error_response : gmap string json :=
    {[ "detail" := JStr (HTTPException.detail exc) ]} in
  let error_response :=
    match HTTPException.error_code exc with
    | Some code =>
        if negb (String.eqb code "")
        then <[ "error_code" := JStr code ]> error_response
        else error_response
    | None => error_response
    end in
  JSONResponse.mk (HTTPException.status_code exc) error_response.

Definition error_entry (error : ErrorDetails.t) : json :=
  JObj {[ "field" := JStr (String.concat " -> " (ErrorDetails.loc error));
          "message" := JStr (ErrorDetails.msg error);
          "type" := JStr (ErrorDetails.type error) ]}.

Definition validation_exception_handler (errors : list ErrorDetails.t)
    : JSONResponse.t :=
  JSONResponse.mk HTTP_400_BAD_REQUEST
    {[ "detail" := JStr "Validation error";
       "error_code" := JStr "VALIDATION_ERROR";
       "errors" := JArr (map error_entry errors) ]}.

(** ** Routes ([app/main.py])

    A route validates the body, runs the handler, and turns what the
    handler returns into the response of its [response_model]; the
    exceptions go to the handlers registered with
    [app.add_exception_handler]. *)

Definition json_of_option (o : option string) : json :=
  match o with Some s => JStr s | None => JNull end.

Definition NoteResponse (n : Note.t) : gmap string json :=
  {[ "id" := JInt (Note.id n);
     "title" := JStr (Note.title n);
     "content" := json_of_option (Note.content n);
     "user_id" := JInt (Note.user_id n);
     "version" := JInt (Note.version n);
     "created_at" := JInt (Note.created_at n);
     "updated_at" := JInt (Note.updated_at n) ]}.

Definition respond {A} (success : Z) (render : A -> gmap string json)
    (r : result A) : JSONResponse.t :=
  match r with
  | Return a => JSONResponse.mk success (render a)
  | Raise e => http_exception_handler e
  end.

(** [POST /notes/] *)
Definition post_notes (env : Env.t) (body : gmap string json)
    (current_user : User.t) (db : DB.t) : JSONResponse.t * DB.t :=
  match NoteCreate_validate body with
  | inr errors => (validation_exception_handler errors, db)
  | inl note_data =>
      let '(r, db') := create_note env note_data current_user db in
      (respond HTTP_201_CREATED NoteResponse r, db')
  end.

(** [PUT /notes/{note_id}] *)
Definition put_note (env : Env.t) (note_id : Z) (body : gmap string json)
    (current_user : User.t) (db : DB.t) : JSONResponse.t * DB.t :=
  match NoteUpdate_validate body with
  | inr errors => (validation_exception_handler errors, db)
  | inl note_update =>
      let '(r, db') := update_note env note_id note_update current_user db in
      (respond HTTP_200_OK NoteResponse r, db')
  end.

(** ** Login ([app/routers/auth.py]) *)

Module UserLogin.
Record t : Type := mk {
  username : string;
  password : string
}.
End UserLogin.

Module Token.
Record t : Type := mk {
  access_token : string;
  token_type : string
}.
End Token.

Section Login.
(** [app.services.auth]: the password check and the token codec are
    collaborators of the handler. *)
Variable verify_password : string -> string -> bool.
Variable create_access_token : Z -> string -> string.

Definition login_user (user_credentials : UserLogin.t) (db : DB.t)
    : result Token.t :=
  let user :=
    first (filter_by
             (fun u => String.eqb (User.username u)
                                  (UserLogin.username user_credentials))
             (DB.users db)) in
  match user with
  | None =>
      Raise (HTTPException.mk HTTP_401_UNAUTHORIZED
               "Incorrect username or password"
               [("WWW-Authenticate", "Bearer")] None)
  | Some user =>
      if negb (verify_password (UserLogin.password user_credentials)
                               (User.password_hash user))
      then
        Raise (HTTPException.mk HTTP_401_UNAUTHORIZED
                 "Incorrect username or password"
                 [("WWW-Authenticate", "Bearer")] None)
      else
        Return (Token.mk (create_access_token (User.id user) (User.username user))
                         "bearer")
  end.

Definition TokenResponse (t : Token.t) : gmap string json :=
  {[ "access_token" := JStr (Token.access_token t);
     "token_type" := JStr (Token.token_type t) ]}.

(** [POST /auth/login], for a body that passed [UserLogin]. *)
Definition post_login (user_credentials : UserLogin.t) (db : DB.t)
    : JSONResponse.t :=
  respond HTTP_200_OK TokenResponse (login_user user_credentials db).
End Login.

(** ** Sessions on a shared database

    Each request owns a SQLAlchemy session.  [update_note] talks to the
    database twice: the SELECT of [query(...).first()], which loads the row
    into the session, and the [db.commit()] that flushes the UPDATE.  The
    version check and the assignments in between only touch the session's
    copy of the row.  Another process may use the database between the
    two. *)
Module Session.
Inductive t : Type :=
  | Start (note_id : Z) (note_update : NoteUpdate.t) (current_user : User.t)
  | Loaded (note : Note.t) (note_update : NoteUpdate.t)
  | Done (r : result Note.t).
End Session.

(** One database round trip of a running [update_note]. *)
Definition session_step (env : Env.t) (s : Session.t) (db : DB.t)
    : Session.t * DB.t :=
  match s with
  | Session.Start note_id note_update current_user =>
      match first (filter_by (owned_by note_id current_user) (DB.notes db)) with
      | None =>
          (Session.Done (Raise (http_error HTTP_404_NOT_FOUND "Note not found")), db)
      | Some note => (Session.Loaded note note_update, db)
      end
  | Session.Loaded note note_update =>
      let '(r, db') := update_loaded env note note_update db in
      (Session.Done r, db')
  | Session.Done r => (Session.Done r, db)
  end.

(** Whose turn it is. *)
Inductive turn : Type := TurnA | TurnB.

(** Two [update_note] calls in two processes, scheduled by [schedule]. *)
Fixpoint interleave (envA envB : Env.t) (schedule : list turn)
    (a b : Session.t) (db : DB.t) : Session.t * Session.t * DB.t :=
  match schedule with
  | [] => (a, b, db)
  | TurnA :: rest =>
      let '(a', db') := session_step envA a db in
      interleave envA envB rest a' b db'
  | TurnB :: rest =>
      let '(b', db') := session_step envB b db in
      interleave envA envB rest a b' db'
  end.

(** ** Sequences of requests *)

Module Request.
Inductive t : Type :=
  | Create (current_user : User.t) (note_data : NoteCreate.t)
  | List (current_user : User.t)
  | Get (current_user : User.t) (note_id : Z)
  | Update (current_user : User.t) (note_id : Z) (note_update : NoteUpdate.t)
  | Delete (current_user : User.t) (note_id : Z).
End Request.

(** The database after one request. *)
Definition serve (env : Env.t) (req : Request.t) (db : DB.t) : DB.t :=
  match req with
  | Request.Create u note_data => snd (create_note env note_data u db)
  | Request.List _ => db
  | Request.Get _ _ => db
  | Request.Update u note_id note_update =>
      snd (update_note env note_id note_update u db)
  | Request.Delete u note_id => snd (delete_note env note_id u db)
  end.

Fixpoint serve_all (trace : list (Env.t * Request.t)) (db : DB.t) : DB.t :=
  match trace with
  | [] => db
  | (env, req) :: rest => serve_all rest (serve env req db)
  end.

(** A client that updates one note again and again, each time presenting
    the version the previous call returned ([version] to begin with). *)
Fixpoint update_chain (steps : list (Env.t * NoteCreate.t)) (note_id : Z)
    (current_user : User.t) (version : Z) (db : DB.t)
    : list (result Note.t) * DB.t :=
  match steps with
  | [] => ([], db)
  | (env, payload) :: rest =>
      let note_update :=
        NoteUpdate.mk (NoteCreate.title payload) (NoteCreate.content payload)
                      version in
      let '(r, db') := update_note env note_id note_update current_user db in
      let version' :=
        match r with Return n => Note.version n | Raise _ => version end in
      let '(rs, db'') := update_chain rest note_id current_user version' db' in
      (r :: rs, db'')
  end.

(** ** Predicates used in the statements *)

(** The primary-key constraint of the notes table. *)
Definition pk_unique (db : DB.t) : Prop := NoDup (map Note.id (DB.notes db)).

(** No row of the notes table carries this primary key. *)
Definition absent (note_id : Z) (db : DB.t) : Prop :=
  forall r, In r (DB.notes db) -> Note.id r <> note_id.

(** The database without the rows that carry a given primary key. *)
Definition without (note_id : Z) (db : DB.t) : DB.t :=
  DB.mk (filter_by (fun r => negb (has_id note_id r)) (DB.notes db)) (DB.users db).

Definition not_found {A} : result A :=
  Raise (http_error HTTP_404_NOT_FOUND "Note not found").

(** The title constraint of [NoteBase]. *)
Definition title_ok (t : string) : Prop :=
  (1 <= String.length t <= 200)%nat.

(** A request body holding exactly a title and a content. *)
Definition note_body (t : string) (c : option string) : gmap string json :=
  match c with
  | Some s => {[ "title" := JStr t; "content" := JStr s ]}
  | None => {[ "title" := JStr t ]}
  end.

(** The reading of deletion under which an id, once deleted, is never found
    again, whatever requests follow. *)
Definition deleted_id_never_found : Prop :=
  forall env note_id u db n,
    Env.storage_ok env = true ->
    get_note note_id u db = Return n ->
    exists db',
      delete_note env note_id u db = (Return "Note deleted successfully", db') /\
      forall trace env' u',
        get_note note_id u' (serve_all trace db') = not_found /\
        (forall upd,
           update_note env' note_id upd u' (serve_all trace db')
           = (not_found, serve_all trace db')) /\
        delete_note env' note_id u' (serve_all trace db')
        = (not_found, serve_all trace db').

(** The reading of the update schema under which every one of [title],
    [content] and [version] must be present in the body. *)
Definition update_requires (fields : list string) : Prop :=
  forall env note_id (body : gmap string json) current_user db field,
    In field fields ->
    body !! field = None ->
    exists errors,
      put_note env note_id body current_user db
      = (validation_exception_handler errors, db).

(** ** Sample data *)

Module Sample.
Definition alice : User.t := User.mk 1 "alice" "hash:secret1" 0.
Definition bob : User.t := User.mk 2 "bob" "hash:hunter2" 0.

(** A storage that works, at instant [now], handing out [new_id]. *)
Definition env (now new_id : Z) : Env.t := Env.mk now new_id true.

(** A password check that compares against the stored string. *)
Definition verify_password (plain hashed : string) : bool :=
  String.eqb ("hash:" ++ plain)%string hashed.

Definition create_access_token (user_id : Z) (username : string) : string :=
  ("token:" ++ username)%string.

(** Alice's note 1, as [create_note] leaves it at instant 10. *)
Definition note1 : Note.t := Note.mk 1 "x" (Some "y") 1 1 10 10.

Definition db1 : DB.t := DB.mk [note1] [alice; bob].

(** Two updates of note 1 that both present version 1. *)
Definition update_a : NoteUpdate.t := NoteUpdate.mk "Update 1" (Some "from 1") 1.
Definition update_b : NoteUpdate.t := NoteUpdate.mk "Update 2" (Some "from 2") 1.

(** An update body without [content]. *)
Definition body_without_content : gmap string json :=
  {[ "title" := JStr "t"; "version" := JInt 1 ]}.

(** A create body with an empty title. *)
Definition body_empty_title : gmap string json :=
  {[ "title" := JStr ""; "content" := JStr "Valid content" ]}.

(** A create body that also tries to set the columns the schema does not
    declare. *)
Definition body_with_extras : gmap string json :=
  {[ "title" := JStr "x"; "content" := JStr "y";
     "id" := JInt 99; "user_id" := JInt 2; "version" := JInt 7 ]}.
End Sample.

(** ** Traces: senders and clocks *)

(** Who sends a request. *)
Definition request_user (req : Request.t) : User.t :=
  match req with
  | Request.Create u _ => u
  | Request.List u => u
  | Request.Get u _ => u
  | Request.Update u _ _ => u
  | Request.Delete u _ => u
  end.

(** A trace whose clock never runs backwards, starting no earlier than
    [t]. *)
Fixpoint clock_from (t : Z) (trace : list (Env.t * Request.t)) : Prop :=
  match trace with
  | [] => True
  | (env, _) :: rest => t <= Env.now env /\ clock_from (Env.now env) rest
  end.

(** ** User schemas ([app/schemas/user.py]) *)

Module UserCreate.
Record t : Type := mk {
  username : string;
  password : string
}.
End UserCreate.

(** [username: str = Field(..., min_length=3, max_length=50)] *)
Definition validate_username (body : gmap string json) : validated string :=
  match body !! "username" with
  | None => inr (field_error "username" "Field required" "missing")
  | Some (JStr s) =>
      if (String.length s <? 3)%nat then
        inr (field_error "username" "String should have at least 3 characters"
                         "string_too_short")
      else if (50 <? String.length s)%nat then
        inr (field_error "username" "String should have at most 50 characters"
                         "string_too_long")
      else inl s
  | Some _ =>
      inr (field_error "username" "Input should be a valid string" "string_type")
  end.

(** [password: str = Field(..., min_length=6)] *)
Definition validate_password (body : gmap string json) : validated string :=
  match body !! "password" with
  | None => inr (field_error "password" "Field required" "missing")
  | Some (JStr s) =>
      if (String.length s <? 6)%nat then
        inr (field_error "password" "String should have at least 6 characters"
                         "string_too_short")
      else inl s
  | Some _ =>
      inr (field_error "password" "Input should be a valid string" "string_type")
  end.

Definition UserCreate_validate (body : gmap string json) : validated UserCreate.t :=
  match validate_username body, validate_password body with
  | inl u, inl p => inl (UserCreate.mk u p)
  | vu, vp => inr (errors_of vu ++ errors_of vp)
  end.

(** A required [str] field without constraints, as [UserLogin] has two. *)
Definition validate_str (field : string) (body : gmap string json)
    : validated string :=
  match body !! field with
  | None => inr (field_error field "Field required" "missing")
  | Some (JStr s) => inl s
  | Some _ => inr (field_error field "Input should be a valid string" "string_type")
  end.

Definition UserLogin_validate (body : gmap string json) : validated UserLogin.t :=
  match validate_str "username" body, validate_str "password" body with
  | inl u, inl p => inl (UserLogin.mk u p)
  | vu, vp => inr (errors_of vu ++ errors_of vp)
  end.

(** ** Registration ([app/routers/auth.py]) *)

(** How the INSERT of a user ends: committed, refused by a constraint
    ([IntegrityError]), or failed otherwise. *)
Inductive user_commit : Type :=
  | UserCommitted (db : DB.t)
  | UserIntegrityError
  | UserOtherError.

(** Modelled from the spec: the users table ([app/models/user.py]) has the
    primary key [id] and a unique [username]; an INSERT that breaks either
    raises [IntegrityError]. *)
Definition commit_insert_user (env : Env.t) (row : User.t) (db : DB.t)
    : user_commit :=
  if negb (Env.storage_ok env) then UserOtherError
  else if existsb (fun u => User.id u =? User.id row) (DB.users db)
          || existsb (fun u => String.eqb (User.username u) (User.username row))
                     (DB.users db)
  then UserIntegrityError
  else UserCommitted (DB.mk (DB.notes db) (DB.users db ++ [row])).

(** The unique constraint on [username]. *)
Definition usernames_unique (db : DB.t) : Prop :=
  NoDup (map User.username (DB.users db)).

Section Register.
(** [app.services.auth.hash_password]; the hash is salted, [salt] is what
    the call draws. *)
Variable hash_password : string -> string -> string.

Definition register_user (env : Env.t) (salt : string)
    (user_data : UserCreate.t) (db : DB.t) : result (string * Z) * DB.t :=
  let hashed_password := hash_password salt (UserCreate.password user_data) in
  let db_user :=
    User.mk (Env.new_id env) (UserCreate.username user_data) hashed_password
            (Env.now env) in
  match commit_insert_user env db_user db with
  | UserCommitted db' => (Return ("User created successfully", User.id db_user), db')
  | UserIntegrityError =>
      (Raise (http_error HTTP_400_BAD_REQUEST "Username already exists"), db)
  | UserOtherError =>
      (Raise (http_error HTTP_500_INTERNAL_SERVER_ERROR "Failed to create user"), db)
  end.


End Register.


(** ** More sample data *)

Module Fixture.
(** A salted hash that the sample password check accepts. *)
Definition hash_password (salt plain : string) : string :=
  ("hash:" ++ plain)%string.

Definition carol : UserCreate.t := UserCreate.mk "carol" "carolpass".

(** Bob's note 2 beside Alice's note 1. *)
Definition note2 : Note.t := Note.mk 2 "b" None 2 3 11 15.

Definition db2 : DB.t := DB.mk [Sample.note1; note2] [Sample.alice; Sample.bob].
End Fixture.

(** * Properties *)

(** ** Queries *)

Section Queries.
Context {A : Type}.
Implicit Types (p : A -> bool) (rows : list A).

Lemma first_filter_Some p rows x :
  first (filter_by p rows) = Some x -> In x rows /\ p x = true.
Proof.
  unfold first, filter_by.
  induction rows as [|r rows IH]; simpl; [discriminate|].
  destruct (p r) eqn:Hp; simpl.
  - intros [= ->]. auto.
  - intros H. destruct (IH H). auto.
Qed.

Lemma first_filter_None p rows :
  first (filter_by p rows) = None <-> (forall x, In x rows -> p x = false).
Proof.
  unfold first, filter_by.
  induction rows as [|r rows IH]; simpl.
  - split; [intros _ x []|reflexivity].
  - destruct (p r) eqn:Hp; simpl.
    + split; [discriminate|].
      intros H. specialize (H r (or_introl eq_refl)). congruence.
    + rewrite IH. split.
      * intros H x [<-|Hx]; auto.
      * intros H x Hx. apply H. auto.
Qed.

(** A rewrite of the rows that the filter cannot see through keeps the
    position of the first match. *)
Lemma first_filter_map p (f : A -> A) rows :
  (forall x, p (f x) = p x) ->
  first (filter_by p (map f rows)) = option_map f (first (filter_by p rows)).
Proof.
  intros Hf. unfold first, filter_by.
  induction rows as [|r rows IH]; simpl; [reflexivity|].
  rewrite Hf. destruct (p r); simpl; auto.
Qed.

Lemma first_filter_app p rows rows' x :
  first (filter_by p rows) = Some x ->
  first (filter_by p (rows ++ rows')) = Some x.
Proof.
  unfold first, filter_by. rewrite List.filter_app.
  destruct (List.filter p rows); simpl; [discriminate|auto].
Qed.

Lemma first_filter_app_None p rows rows' :
  first (filter_by p rows) = None ->
  first (filter_by p (rows ++ rows')) = first (filter_by p rows').
Proof.
  unfold first, filter_by. rewrite List.filter_app.
  destruct (List.filter p rows); simpl; [auto|discriminate].
Qed.
End Queries.

Lemma existsb_has_id_false note_id rows :
  existsb (has_id note_id) rows = false <->
  (forall r, In r rows -> Note.id r <> note_id).
Proof.
  unfold has_id. induction rows as [|r rows IH]; simpl.
  - split; [intros _ r []|reflexivity].
  - rewrite orb_false_iff, IH, Z.eqb_neq. split.
    + intros [H1 H2] x [<-|Hx]; auto.
    + intros H. split; [apply H; auto|]. intros x Hx. apply H. auto.
Qed.

Lemma owned_by_spec note_id u n :
  owned_by note_id u n = true <->
  Note.id n = note_id /\ Note.user_id n = User.id u.
Proof. unfold owned_by. rewrite andb_true_iff, !Z.eqb_eq. tauto. Qed.

Lemma owned_by_write_row env note note_id u r :
  owned_by note_id u (write_row env note r) = owned_by note_id u r.
Proof. unfold write_row. destruct (has_id _ r); reflexivity. Qed.

(** ** The handlers, case by case *)

Lemma get_note_found note_id u db n :
  get_note note_id u db = Return n <->
  first (filter_by (owned_by note_id u) (DB.notes db)) = Some n.
Proof.
  unfold get_note.
  destruct (first _); split; intros H; try discriminate; congruence.
Qed.

Lemma get_note_not_found note_id u db :
  get_note note_id u db = not_found <->
  first (filter_by (owned_by note_id u) (DB.notes db)) = None.
Proof.
  unfold get_note, not_found.
  destruct (first _); split; intros H; try discriminate; congruence.
Qed.

Lemma update_note_not_found env note_id upd u db :
  first (filter_by (owned_by note_id u) (DB.notes db)) = None ->
  update_note env note_id upd u db = (not_found, db).
Proof. unfold update_note. intros ->. reflexivity. Qed.

Lemma delete_note_not_found env note_id u db :
  first (filter_by (owned_by note_id u) (DB.notes db)) = None ->
  delete_note env note_id u db = (not_found, db).
Proof. unfold delete_note. intros ->. reflexivity. Qed.

(** A successful update: the presented version was the stored one, the
    returned note carries the payload and the next version, and this is the
    row the owner reads back. *)
Lemma update_note_success env note_id upd u db n' db' :
  update_note env note_id upd u db = (Return n', db') ->
  exists n,
    get_note note_id u db = Return n /\
    NoteUpdate.version upd = Note.version n /\
    n' = assign_update env n upd /\
    get_note note_id u db' = Return n'.
Proof.
  unfold update_note, update_loaded.
  destruct (first _) as [n|] eqn:Hq; [|discriminate].
  destruct (Z.eqb_spec (Note.version n) (NoteUpdate.version upd)) as [Hv|Hv];
    simpl; [|discriminate].
  unfold commit_update; simpl.
  destruct (Env.storage_ok env && _); [|discriminate].
  intros [= <- <-]. exists n.
  split; [by apply get_note_found|].
  split; [done|]. split; [done|].
  apply get_note_found; simpl.
  rewrite first_filter_map by (intros; apply owned_by_write_row).
  rewrite Hq; simpl. f_equal.
  unfold write_row, has_id; simpl. rewrite Z.eqb_refl. reflexivity.
Qed.

(** With a working storage, an update that presents the stored version goes
    through. *)
Lemma update_note_accepts env note_id upd u db n :
  Env.storage_ok env = true ->
  get_note note_id u db = Return n ->
  NoteUpdate.version upd = Note.version n ->
  exists n' db', update_note env note_id upd u db = (Return n', db').
Proof.
  intros Hok Hget Hv. apply get_note_found in Hget.
  unfold update_note, update_loaded. rewrite Hget, Hv, Z.eqb_refl; simpl.
  unfold commit_update; simpl. rewrite Hok; simpl.
  destruct (first_filter_Some _ _ _ Hget) as [Hin _].
  destruct (existsb _ _) eqn:Hex; [eauto|].
  rewrite existsb_has_id_false in Hex. by destruct (Hex n Hin).
Qed.

Lemma update_note_conflict env note_id upd u db n :
  get_note note_id u db = Return n ->
  NoteUpdate.version upd <> Note.version n ->
  update_note env note_id upd u db
  = (Raise (http_error HTTP_409_CONFLICT conflict_detail), db).
Proof.
  intros Hget Hv. apply get_note_found in Hget.
  unfold update_note, update_loaded. rewrite Hget.
  destruct (Z.eqb_spec (Note.version n) (NoteUpdate.version upd)); [congruence|].
  reflexivity.
Qed.

(** A successful create: the row it returns, where it went, and that the
    owner reads it back. *)
Lemma create_note_success env nd u db n db' :
  create_note env nd u db = (Return n, db') ->
  n = Note.mk (Env.new_id env) (NoteCreate.title nd) (NoteCreate.content nd)
              (User.id u) 1 (Env.now env) (Env.now env) /\
  DB.notes db' = DB.notes db ++ [n] /\
  DB.users db' = DB.users db /\
  absent (Env.new_id env) db /\
  get_note (Note.id n) u db' = Return n.
Proof.
  unfold create_note, commit_insert; simpl.
  destruct (Env.storage_ok env); simpl; [|discriminate].
  destruct (existsb _ _) eqn:Hex; simpl; [discriminate|].
  intros [= <- <-]; simpl.
  rewrite existsb_has_id_false in Hex.
  repeat split; try done.
  apply get_note_found; simpl.
  rewrite first_filter_app_None.
  - unfold first, filter_by, owned_by; simpl. by rewrite !Z.eqb_refl.
  - apply first_filter_None. intros r Hr. unfold owned_by.
    destruct (Z.eqb_spec (Note.id r) (Env.new_id env)); [|done].
    by destruct (Hex r Hr).
Qed.

Lemma create_note_accepts env nd u db :
  Env.storage_ok env = true ->
  absent (Env.new_id env) db ->
  exists n db', create_note env nd u db = (Return n, db').
Proof.
  intros Hok Hfresh. unfold create_note, commit_insert; simpl.
  apply existsb_has_id_false in Hfresh. rewrite Hok, Hfresh; simpl. eauto.
Qed.

(** ** Chains of updates *)

Lemma update_chain_spec steps : forall note_id u db n,
  get_note note_id u db = Return n ->
  Forall (fun s => Env.storage_ok (fst s) = true) steps ->
  let '(rs, db') := update_chain steps note_id u (Note.version n) db in
  length rs = length steps /\
  (forall (k : nat) r, rs !! k = Some r ->
     exists m, r = Return m /\ Note.version m = Note.version n + Z.of_nat k + 1) /\
  exists n', get_note note_id u db' = Return n' /\
             Note.version n' = Note.version n + Z.of_nat (length steps).
Proof.
  induction steps as [|[env payload] steps IH]; intros note_id u db n Hget Hok.
  - simpl. split; [done|]. split; [intros k r; by rewrite lookup_nil|].
    exists n. split; [done|lia].
  - apply Forall_cons in Hok as [Hok1 Hok]. simpl in Hok1.
    cbn [update_chain].
    set (upd := NoteUpdate.mk _ _ _).
    destruct (update_note_accepts env note_id upd u db n Hok1 Hget eq_refl)
      as (m & db1 & Hupd).
    rewrite Hupd.
    destruct (update_note_success _ _ _ _ _ _ _ Hupd)
      as (n0 & Hget0 & _ & Hm & Hget1).
    assert (n0 = n) as -> by congruence.
    assert (Hvm : Note.version m = Note.version n + 1) by (by rewrite Hm).
    specialize (IH note_id u db1 m Hget1 Hok).
    destruct (update_chain steps note_id u (Note.version m) db1) as [rs db2].
    destruct IH as (Hlen & Hrs & n' & Hget' & Hv').
    split; [simpl; by rewrite Hlen|]. split.
    + intros [|k] r; simpl.
      * intros [= <-]. exists m. split; [done|lia].
      * intros Hk. destruct (Hrs k r Hk) as (m' & -> & Hm').
        exists m'. split; [done|lia].
    + exists n'. split; [done|]. simpl length. lia.
Qed.

(** C4. When the owner updates an existing note and presents a version
    other than the stored one, the call raises 409 and the database is the
    one it was given: the note keeps its title, content, version and
    [updated_at]. *)
Theorem stale_version_conflict env note_id upd u db n :
  get_note note_id u db = Return n ->
  NoteUpdate.version upd <> Note.version n ->
  exists e db',
    update_note env note_id upd u db = (Raise e, db') /\
    HTTPException.status_code e = HTTP_409_CONFLICT /\
    HTTPException.detail e = conflict_detail /\
    db' = db /\
    get_note note_id u db' = Return n.
Proof.
  intros Hget Hv.
  exists (http_error HTTP_409_CONFLICT conflict_detail), db.
  rewrite (update_note_conflict env note_id upd u db n Hget Hv).
  repeat split; done.
Qed.

(** ** Ownership scoping *)

Lemma pk_unique_same_id db n r :
  pk_unique db -> In n (DB.notes db) -> In r (DB.notes db) ->
  Note.id r = Note.id n -> r = n.
Proof.
  unfold pk_unique. induction (DB.notes db) as [|x rows IH]; simpl; [done|].
  intros Hnd Hn Hr Hid. apply NoDup_cons in Hnd as [Hx Hnd].
  destruct Hn as [->|Hn], Hr as [->|Hr]; [done| | |by apply IH].
  - destruct Hx. apply list_elem_of_In. rewrite <- Hid. by apply in_map.
  - destruct Hx. apply list_elem_of_In. rewrite Hid. by apply in_map.
Qed.

Lemma absent_not_owned note_id u db :
  absent note_id db ->
  first (filter_by (owned_by note_id u) (DB.notes db)) = None.
Proof.
  intros Habs. apply first_filter_None. intros r Hr. unfold owned_by.
  destruct (Z.eqb_spec (Note.id r) note_id); [|done].
  by destruct (Habs r Hr).
Qed.

Lemma foreign_not_owned db A B n :
  pk_unique db -> In n (DB.notes db) ->
  Note.user_id n = User.id A -> User.id A <> User.id B ->
  first (filter_by (owned_by (Note.id n) B) (DB.notes db)) = None.
Proof.
  intros Hpk Hn HA HAB. apply first_filter_None. intros r Hr.
  destruct (owned_by (Note.id n) B r) eqn:Ho; [|done].
  apply owned_by_spec in Ho as [Hid Hu].
  rewrite (pk_unique_same_id db n r Hpk Hn Hr Hid) in Hu. congruence.
Qed.

Lemma filter_by_refine {A} (p q : A -> bool) rows :
  (forall x, In x rows -> p x = true -> q x = true) ->
  filter_by p rows = filter_by p (filter_by q rows).
Proof.
  unfold filter_by. induction rows as [|r rows IH]; simpl; [done|].
  intros H. rewrite IH by (intros; apply H; auto).
  destruct (p r) eqn:Hp.
  - rewrite (H r (or_introl eq_refl) Hp); simpl. by rewrite Hp.
  - destruct (q r); simpl; [by rewrite Hp|done].
Qed.

Lemma absent_without note_id db : absent note_id (without note_id db).
Proof.
  intros r Hr. simpl in Hr. apply List.filter_In in Hr as [_ Hr].
  unfold has_id in Hr. by destruct (Z.eqb_spec (Note.id r) note_id).
Qed.

(** C3. Let a note belong to A and let B be another user. The note is not
    in B's list, which is the list B would get if the note were not there
    at all; and B's get, update (whatever the payload and version) and
    delete on the note's id raise 404 "Note not found" and leave the
    database alone, exactly as they do on any database that has no row
    with that id. *)
Theorem foreign_note_invisible db A B n :
  pk_unique db ->
  In n (DB.notes db) ->
  Note.user_id n = User.id A ->
  User.id A <> User.id B ->
  ~ In n (get_user_notes B db) /\
  get_user_notes B db = get_user_notes B (without (Note.id n) db) /\
  get_note (Note.id n) B db = not_found /\
  (forall env upd, update_note env (Note.id n) upd B db = (not_found, db)) /\
  (forall env, delete_note env (Note.id n) B db = (not_found, db)) /\
  (forall db0, absent (Note.id n) db0 ->
     get_note (Note.id n) B db0 = get_note (Note.id n) B db /\
     (forall env upd,
        fst (update_note env (Note.id n) upd B db0)
        = fst (update_note env (Note.id n) upd B db)) /\
     (forall env,
        fst (delete_note env (Note.id n) B db0)
        = fst (delete_note env (Note.id n) B db))).
Proof.
  intros Hpk Hn HA HAB.
  pose proof (foreign_not_owned db A B n Hpk Hn HA HAB) as Hq.
  split.
  { unfold get_user_notes, all, filter_by. rewrite List.filter_In.
    intros [_ Hu]. apply Z.eqb_eq in Hu. congruence. }
  split.
  { unfold get_user_notes, all, without; simpl.
    apply filter_by_refine. intros r Hr Hu. apply Z.eqb_eq in Hu.
    unfold has_id. destruct (Z.eqb_spec (Note.id r) (Note.id n)) as [Hid|]; [|done].
    rewrite (pk_unique_same_id db n r Hpk Hn Hr Hid) in Hu. congruence. }
  split; [by apply get_note_not_found|].
  split; [intros; by apply update_note_not_found|].
  split; [intros; by apply delete_note_not_found|].
  intros db0 Habs. pose proof (absent_not_owned (Note.id n) B db0 Habs) as Hq0.
  split.
  { apply get_note_not_found in Hq, Hq0. congruence. }
  split; intros.
  - by rewrite !update_note_not_found.
  - by rewrite !delete_note_not_found.
Qed.

(** ** Deletion *)

Lemma absent_not_found note_id db :
  absent note_id db ->
  forall env u,
    get_note note_id u db = not_found /\
    (forall upd, update_note env note_id upd u db = (not_found, db)) /\
    delete_note env note_id u db = (not_found, db).
Proof.
  intros Habs env u. pose proof (absent_not_owned note_id u db Habs) as Hq.
  split; [by apply get_note_not_found|].
  split; [intros; by apply update_note_not_found|by apply delete_note_not_found].
Qed.

Lemma delete_note_success env note_id u db msg db' :
  delete_note env note_id u db = (Return msg, db') ->
  db' = without note_id db /\ msg = "Note deleted successfully".
Proof.
  unfold delete_note, commit_delete.
  destruct (first _) as [n|] eqn:Hq; [|discriminate].
  apply first_filter_Some in Hq as [_ Ho]. apply owned_by_spec in Ho as [<- _].
  destruct (Env.storage_ok env); [|discriminate].
  by intros [= <- <-].
Qed.

Lemma map_write_row_ids env note rows :
  map Note.id (map (write_row env note) rows) = map Note.id rows.
Proof.
  rewrite List.map_map. apply List.map_ext. intros r.
  unfold write_row. by destruct (has_id _ r).
Qed.

(** What a request does to the primary keys in use: a create adds the key
    the server chose, a delete removes one, nothing else changes them. *)
Lemma serve_ids env req db :
  (exists u nd, req = Request.Create u nd /\
     ~ In (Env.new_id env) (map Note.id (DB.notes db)) /\
     map Note.id (DB.notes (serve env req db))
     = map Note.id (DB.notes db) ++ [Env.new_id env]) \/
  (exists note_id,
     map Note.id (DB.notes (serve env req db))
     = List.filter (fun i => negb (i =? note_id)) (map Note.id (DB.notes db))) \/
  map Note.id (DB.notes (serve env req db)) = map Note.id (DB.notes db).
Proof.
  destruct req as [u nd|u|u note_id|u note_id upd|u note_id]; simpl; auto.
  - destruct (create_note env nd u db) as [[n|e] db'] eqn:Hc.
    + destruct (create_note_success _ _ _ _ _ _ Hc) as (Hn & Hnotes & _ & Habs & _).
      left. exists u, nd. split; [done|]. split.
      * rewrite List.in_map_iff. intros (r & Hid & Hr). by destruct (Habs r Hr).
      * simpl. rewrite Hnotes, List.map_app. simpl. by rewrite Hn.
    + right; right. unfold create_note in Hc.
      destruct (commit_insert _ _ _); [discriminate|]. by injection Hc as _ <-.
  - right; right. unfold update_note, update_loaded.
    destruct (first _) as [n|]; [|done].
    destruct (negb _); [done|]. unfold commit_update; simpl.
    destruct (_ && _); [|done]. simpl. apply map_write_row_ids.
  - unfold delete_note, commit_delete.
    destruct (first _) as [n|]; [|auto].
    destruct (Env.storage_ok env); [|auto].
    right; left. exists (Note.id n). simpl. unfold filter_by, has_id.
    induction (DB.notes db) as [|r rows IH]; simpl; [done|].
    destruct (Note.id r =? Note.id n); simpl; by rewrite IH.
Qed.

Lemma absent_ids note_id db :
  absent note_id db <-> ~ In note_id (map Note.id (DB.notes db)).
Proof.
  unfold absent. rewrite List.in_map_iff. split.
  - intros H (r & Hid & Hr). by destruct (H r Hr).
  - intros H r Hr Hid. apply H. eauto.
Qed.

Lemma serve_absent env req db note_id :
  (forall u nd, req = Request.Create u nd -> Env.new_id env <> note_id) ->
  absent note_id db -> absent note_id (serve env req db).
Proof.
  rewrite !absent_ids. intros Hreq Habs.
  destruct (serve_ids env req db) as [(u & nd & -> & _ & ->)|[[i ->]| ->]]; [| |done].
  - rewrite List.in_app_iff. intros [?|[Heq|[]]]; [done|].
    by destruct (Hreq u nd eq_refl).
  - rewrite List.filter_In. by intros [? _].
Qed.

Lemma serve_all_absent trace : forall db note_id,
  (forall env u nd, In (env, Request.Create u nd) trace -> Env.new_id env <> note_id) ->
  absent note_id db -> absent note_id (serve_all trace db).
Proof.
  induction trace as [|[env req] trace IH]; intros db note_id Htr Habs; [done|].
  simpl. apply IH.
  - intros e u nd Hin. apply (Htr e u nd). by right.
  - apply serve_absent; [|done]. intros u nd ->. apply (Htr env u nd). by left.
Qed.

(** The primary-key constraint holds on the empty database and every
    request keeps it. *)
Lemma pk_unique_empty : pk_unique DB.empty.
Proof. apply NoDup_nil_2. Qed.

Lemma serve_pk_unique env req db : pk_unique db -> pk_unique (serve env req db).
Proof.
  unfold pk_unique. intros Hpk.
  destruct (serve_ids env req db) as [(u & nd & -> & Hnew & ->)|[[i ->]| ->]]; [| |done].
  - apply NoDup_app. split; [done|]. split; [|apply NoDup_singleton].
    intros x Hx Hx'. apply list_elem_of_In in Hx. apply list_elem_of_singleton in Hx'.
    by subst.
  - apply NoDup_ListNoDup, List.NoDup_filter. by apply NoDup_ListNoDup.
Qed.

Lemma serve_all_pk_unique trace :
  pk_unique (serve_all trace DB.empty).
Proof.
  assert (H : forall db, pk_unique db -> pk_unique (serve_all trace db)).
  { induction trace as [|[env req] trace IH]; intros db Hpk; [done|].
    simpl. by apply IH, serve_pk_unique. }
  apply H, pk_unique_empty.
Qed.

(** C8, amended. With a working storage the owner's delete of an existing
    note succeeds whatever the note's version: the call takes no version
    and reads none. After it, and after any further requests, as long as
    the database does not hand the same primary key to a later insert,
    every user's get, update and delete on that id raise 404 "Note not
    found". *)
Theorem delete_is_final env note_id u db n :
  Env.storage_ok env = true ->
  get_note note_id u db = Return n ->
  exists db',
    delete_note env note_id u db = (Return "Note deleted successfully", db') /\
    forall trace,
      (forall e u' nd, In (e, Request.Create u' nd) trace -> Env.new_id e <> note_id) ->
      forall env' u',
        get_note note_id u' (serve_all trace db') = not_found /\
        (forall upd,
           update_note env' note_id upd u' (serve_all trace db')
           = (not_found, serve_all trace db')) /\
        delete_note env' note_id u' (serve_all trace db')
        = (not_found, serve_all trace db').
Proof.
  intros Hok Hget. apply get_note_found in Hget.
  assert (Hdel : exists db',
    delete_note env note_id u db = (Return "Note deleted successfully", db')).
  { unfold delete_note, commit_delete. rewrite Hget, Hok. eauto. }
  destruct Hdel as [db' Hdel]. exists db'. split; [done|].
  destruct (delete_note_success _ _ _ _ _ _ Hdel) as [-> _].
  intros trace Htr env' u'.
  apply absent_not_found, serve_all_absent; [done|apply absent_without].
Qed.

(** C8, as stated: an id is not gone for good. Alice deletes note 1, the
    only row; the database gives the next insert, Bob's, the key 1 again;
    Bob's get on id 1 then returns his new note instead of 404. *)
Lemma deleted_id_can_be_reissued : ~ deleted_id_never_found.
Proof.
  intros H.
  destruct (H (Sample.env 40 0) 1 Sample.alice Sample.db1 Sample.note1
              eq_refl eq_refl) as (db' & Hdel & Hafter).
  injection Hdel as <-.
  destruct (Hafter [(Sample.env 50 1,
                     Request.Create Sample.bob (NoteCreate.mk "b" None))]
                   (Sample.env 60 0) Sample.bob) as [Hget _].
  vm_compute in Hget. discriminate Hget.
Qed.

(** ** Validation *)

Lemma validate_title_ok (body : gmap string json) t :
  body !! "title" = Some (JStr t) -> title_ok t -> validate_title body = inl t.
Proof.
  unfold validate_title, title_ok. intros -> [H1 H2].
  destruct (Nat.ltb_spec (String.length t) 1); [lia|].
  destruct (Nat.ltb_spec 200 (String.length t)); [lia|done].
Qed.

Lemma validate_title_bad (body : gmap string json) t :
  body !! "title" = Some (JStr t) -> ~ title_ok t ->
  exists errors, validate_title body = inr errors.
Proof.
  unfold validate_title, title_ok. intros -> H.
  destruct (Nat.ltb_spec (String.length t) 1); [eauto|].
  destruct (Nat.ltb_spec 200 (String.length t)); [eauto|lia].
Qed.

Lemma validate_title_missing (body : gmap string json) :
  body !! "title" = None -> exists errors, validate_title body = inr errors.
Proof. unfold validate_title. intros ->. eauto. Qed.

Lemma validate_version_missing (body : gmap string json) :
  body !! "version" = None -> exists errors, validate_version body = inr errors.
Proof. unfold validate_version. intros ->. eauto. Qed.

Lemma NoteCreate_validate_title_error (body : gmap string json) errors :
  validate_title body = inr errors ->
  exists errors', NoteCreate_validate body = inr errors'.
Proof. unfold NoteCreate_validate. intros ->. destruct (validate_content body); eauto. Qed.

Lemma NoteUpdate_validate_title_error (body : gmap string json) errors :
  validate_title body = inr errors ->
  exists errors', NoteUpdate_validate body = inr errors'.
Proof.
  unfold NoteUpdate_validate. intros ->.
  destruct (validate_content body), (validate_version body); eauto.
Qed.

Lemma NoteUpdate_validate_version_error (body : gmap string json) errors :
  validate_version body = inr errors ->
  exists errors', NoteUpdate_validate body = inr errors'.
Proof.
  unfold NoteUpdate_validate. intros ->.
  destruct (validate_title body), (validate_content body); eauto.
Qed.

Lemma note_body_title t c : note_body t c !! "title" = Some (JStr t).
Proof.
  destruct c; simpl; [apply lookup_insert_eq|apply lookup_singleton_eq].
Qed.

Lemma note_body_content t c :
  validate_content (note_body t c) = inl c.
Proof.
  unfold validate_content. destruct c as [s|]; simpl.
  - rewrite lookup_insert_ne by done. by rewrite lookup_singleton_eq.
  - by rewrite lookup_singleton_ne.
Qed.

Lemma validation_response errors :
  JSONResponse.status_code (validation_exception_handler errors)
  = HTTP_400_BAD_REQUEST /\
  JSONResponse.content (validation_exception_handler errors) !! "error_code"
  = Some (JStr "VALIDATION_ERROR").
Proof.
  split; [done|]. simpl.
  rewrite lookup_insert_ne by done. apply lookup_insert_eq.
Qed.

(** C6. For a title of 1 to 200 characters and any content, on a working
    storage that hands out an unused primary key, the body validates,
    create returns a note with version 1 and the given title and content,
    and the owner's get on the returned id yields that very note, equal in
    every field. For a title outside 1 to 200 characters the request ends
    in the validation response with error code VALIDATION_ERROR and the
    database is not touched. *)
Theorem create_get_roundtrip env t c u db :
  Env.storage_ok env = true ->
  absent (Env.new_id env) db ->
  (title_ok t ->
   exists n db',
     NoteCreate_validate (note_body t c) = inl (NoteCreate.mk t c) /\
     create_note env (NoteCreate.mk t c) u db = (Return n, db') /\
     post_notes env (note_body t c) u db
     = (JSONResponse.mk HTTP_201_CREATED (NoteResponse n), db') /\
     get_note (Note.id n) u db' = Return n /\
     Note.version n = 1 /\ Note.title n = t /\ Note.content n = c) /\
  (~ title_ok t ->
   exists errors,
     NoteCreate_validate (note_body t c) = inr errors /\
     post_notes env (note_body t c) u db
     = (validation_exception_handler errors, db) /\
     JSONResponse.content (validation_exception_handler errors) !! "error_code"
     = Some (JStr "VALIDATION_ERROR")).
Proof.
  intros Hok Hfresh. split.
  - intros Ht.
    assert (Hv : NoteCreate_validate (note_body t c) = inl (NoteCreate.mk t c)).
    { unfold NoteCreate_validate.
      by rewrite (validate_title_ok _ t (note_body_title t c) Ht), note_body_content. }
    destruct (create_note_accepts env (NoteCreate.mk t c) u db Hok Hfresh)
      as (n & db' & Hc).
    destruct (create_note_success _ _ _ _ _ _ Hc) as (Hn & _ & _ & _ & Hget).
    exists n, db'. unfold post_notes. rewrite Hv, Hc.
    repeat split; try done; by rewrite Hn.
  - intros Ht.
    destruct (validate_title_bad _ t (note_body_title t c) Ht) as [e He].
    destruct (NoteCreate_validate_title_error _ _ He) as [errors Hv].
    exists errors. unfold post_notes. rewrite Hv.
    repeat split; try done; apply validation_response.
Qed.

(** C10. Whatever the body, when it validates and create succeeds, the
    created note belongs to the caller, has version 1 and carries the
    primary key the database chose, and it is the row that is stored: the
    notes table afterwards is the old table followed by exactly this row,
    the users are untouched, the owner's get on the new id returns it, and
    the route answers 201 with it. Two bodies that agree on [title] and
    [content] get the same answer and leave the same database, whatever
    else they hold. *)
Theorem create_owner_and_version_fixed env (body : gmap string json) nd u db n db' :
  NoteCreate_validate body = inl nd ->
  create_note env nd u db = (Return n, db') ->
  Note.user_id n = User.id u /\
  Note.version n = 1 /\
  Note.id n = Env.new_id env /\
  DB.notes db' = DB.notes db ++ [n] /\
  DB.users db' = DB.users db /\
  get_note (Note.id n) u db' = Return n /\
  post_notes env body u db = (JSONResponse.mk HTTP_201_CREATED (NoteResponse n), db') /\
  forall body' : gmap string json,
    body' !! "title" = body !! "title" ->
    body' !! "content" = body !! "content" ->
    post_notes env body' u db = post_notes env body u db.
Proof.
  intros Hv Hc.
  destruct (create_note_success _ _ _ _ _ _ Hc) as (Hn & Hnotes & Husers & _ & Hget).
  split; [by rewrite Hn|]. split; [by rewrite Hn|]. split; [by rewrite Hn|].
  split; [done|]. split; [done|]. split; [done|]. split.
  - unfold post_notes. by rewrite Hv, Hc.
  - intros body' Ht Hcn.
    unfold post_notes, NoteCreate_validate, validate_title, validate_content.
    by rewrite Ht, Hcn.
Qed.

Lemma post_notes_invalid env (body : gmap string json) u db errors :
  NoteCreate_validate body = inr errors ->
  post_notes env body u db = (validation_exception_handler errors, db).
Proof. unfold post_notes. by intros ->. Qed.

Lemma put_note_invalid env note_id (body : gmap string json) u db errors :
  NoteUpdate_validate body = inr errors ->
  put_note env note_id body u db = (validation_exception_handler errors, db).
Proof. unfold put_note. by intros ->. Qed.

(** C5. A create request with an empty title is answered by
    [validation_exception_handler] before the handler runs and the database
    is the one given; the answer carries error code VALIDATION_ERROR, and
    its status is 400, not 422. Every answer of that handler has status
    400. *)
Theorem validation_error_status_is_400 env u db :
  post_notes env Sample.body_empty_title u db
  = (validation_exception_handler
       (field_error "title" "String should have at least 1 character"
                    "string_too_short"), db) /\
  (forall errors,
     JSONResponse.status_code (validation_exception_handler errors) = 400 /\
     JSONResponse.status_code (validation_exception_handler errors)
     <> HTTP_422_UNPROCESSABLE_ENTITY /\
     JSONResponse.content (validation_exception_handler errors) !! "error_code"
     = Some (JStr "VALIDATION_ERROR")).
Proof.
  split.
  - apply post_notes_invalid. reflexivity.
  - intros errors. split; [done|]. split; [done|]. apply validation_response.
Qed.

(** C9, as stated: not every one of the three fields is required. A body
    without [content] passes the schema. *)
Lemma update_without_content_accepted :
  ~ update_requires ["title"; "content"; "version"].
Proof.
  intros H.
  destruct (H (Sample.env 20 0) 1 Sample.body_without_content
              Sample.alice Sample.db1 "content") as [errors He].
  - simpl. auto.
  - reflexivity.
  - apply (f_equal (fun p => JSONResponse.status_code (fst p))) in He.
    vm_compute in He. discriminate.
Qed.

(** C9, amended. A PUT body without [title] or without [version] ends in
    the validation response and the database is the one given. [content]
    may be left out: a body with a valid title, an integer version and no
    [content] validates, with [content] set to [None]. *)
Theorem update_requires_title_and_version :
  update_requires ["title"; "version"] /\
  (forall (body : gmap string json) t v,
     body !! "title" = Some (JStr t) -> title_ok t ->
     body !! "version" = Some (JInt v) ->
     body !! "content" = None ->
     NoteUpdate_validate body = inl (NoteUpdate.mk t None v)).
Proof.
  split.
  - intros env note_id body u db field Hfield Hnone.
    assert (exists errors, NoteUpdate_validate body = inr errors) as [errors Hv].
    { destruct Hfield as [<-|[<-|[]]].
      - destruct (validate_title_missing body Hnone) as [e He].
        by apply NoteUpdate_validate_title_error in He.
      - destruct (validate_version_missing body Hnone) as [e He].
        by apply NoteUpdate_validate_version_error in He. }
    exists errors. by apply put_note_invalid.
  - intros body t v Ht Hok Hv Hc. unfold NoteUpdate_validate.
    rewrite (validate_title_ok body t Ht Hok).
    unfold validate_content, validate_version. by rewrite Hc, Hv.
Qed.

(** ** Login *)

(** C7. A login with a registered username and a password that does not
    verify, and a login with a username that is not registered, raise the
    same exception (401, "Incorrect username or password", the same header)
    and so get the same response, which holds the detail and nothing
    else. *)
Theorem login_failures_identical verify_password create_access_token
    db c1 c2 user :
  first (filter_by (fun u => String.eqb (User.username u) (UserLogin.username c1))
                   (DB.users db)) = Some user ->
  verify_password (UserLogin.password c1) (User.password_hash user) = false ->
  first (filter_by (fun u => String.eqb (User.username u) (UserLogin.username c2))
                   (DB.users db)) = None ->
  login_user verify_password create_access_token c1 db
  = login_user verify_password create_access_token c2 db /\
  login_user verify_password create_access_token c1 db
  = Raise (HTTPException.mk HTTP_401_UNAUTHORIZED "Incorrect username or password"
             [("WWW-Authenticate", "Bearer")] None) /\
  post_login verify_password create_access_token c1 db
  = post_login verify_password create_access_token c2 db /\
  post_login verify_password create_access_token c1 db
  = JSONResponse.mk 401 {[ "detail" := JStr "Incorrect username or password" ]}.
Proof.
  intros H1 Hv H2.
  assert (E1 : login_user verify_password create_access_token c1 db
    = Raise (HTTPException.mk HTTP_401_UNAUTHORIZED "Incorrect username or password"
               [("WWW-Authenticate", "Bearer")] None)).
  { unfold login_user. by rewrite H1, Hv. }
  assert (E2 : login_user verify_password create_access_token c2 db
    = Raise (HTTPException.mk HTTP_401_UNAUTHORIZED "Incorrect username or password"
               [("WWW-Authenticate", "Bearer")] None)).
  { unfold login_user. by rewrite H2. }
  unfold post_login. rewrite E1, E2. done.
Qed.

(** ** Two updates at once *)

(** A session that is not interrupted is the handler. *)
Lemma session_alone env note_id upd u db :
  (let '(s, db1) := session_step env (Session.Start note_id upd u) db in
   session_step env s db1)
  = (Session.Done (fst (update_note env note_id upd u db)),
     snd (update_note env note_id upd u db)).
Proof.
  unfold update_note; simpl.
  destruct (first _); [|done]; simpl.
  by destruct (update_loaded env _ upd db).
Qed.

(** One request after the other: the first wins, the second gets 409. *)
Lemma serial_updates env_a env_b note_id u upd_a upd_b db n :
  Env.storage_ok env_a = true ->
  get_note note_id u db = Return n ->
  NoteUpdate.version upd_a = Note.version n ->
  NoteUpdate.version upd_b = Note.version n ->
  exists na db',
    interleave env_a env_b [TurnA; TurnA; TurnB; TurnB]
      (Session.Start note_id upd_a u) (Session.Start note_id upd_b u) db
    = (Session.Done (Return na),
       Session.Done (Raise (http_error HTTP_409_CONFLICT conflict_detail)), db') /\
    get_note note_id u db' = Return na /\
    Note.version na = Note.version n + 1 /\
    Note.title na = NoteUpdate.title upd_a /\
    Note.content na = NoteUpdate.content upd_a.
Proof.
  intros Hok Hget Ha Hb.
  destruct (update_note_accepts env_a note_id upd_a u db n Hok Hget Ha)
    as (na & db' & Hupd).
  destruct (update_note_success _ _ _ _ _ _ _ Hupd) as (n0 & Hg0 & _ & Hna & Hg').
  assert (n0 = n) as -> by congruence.
  exists na, db'.
  assert (Hvb : NoteUpdate.version upd_b <> Note.version na)
    by (rewrite Hna, Hb; simpl; lia).
  pose proof (update_note_conflict env_b note_id upd_b u db' na Hg' Hvb) as Hc.
  unfold update_note in Hupd, Hc.
  apply get_note_found in Hget, Hg'.
  rewrite Hget in Hupd. rewrite Hg' in Hc.
  cbn [interleave session_step]. rewrite Hget. cbn [session_step].
  rewrite Hupd. rewrite Hg'. cbn [session_step]. rewrite Hc.
  apply get_note_found in Hg'. subst na. done.
Qed.

(** The commit of a session whose check passed. *)
Lemma update_loaded_commits env n upd db :
  Env.storage_ok env = true ->
  NoteUpdate.version upd = Note.version n ->
  existsb (has_id (Note.id n)) (DB.notes db) = true ->
  update_loaded env n upd db
  = (Return (assign_update env n upd),
     DB.mk (map (write_row env (assign_update env n upd)) (DB.notes db))
           (DB.users db)).
Proof.
  intros Hok Hv Hex. unfold update_loaded, commit_update.
  rewrite Hv, Z.eqb_refl, Hok. simpl. by rewrite Hex.
Qed.

(** The second SELECT before the first commit: both sessions hold the row
    at the old version, both checks pass, both commits go through, both
    calls return the old version plus one, and the row ends up with the
    payload of whoever committed last. *)
Lemma interleaved_updates env_a env_b note_id u upd_a upd_b db n :
  Env.storage_ok env_a = true ->
  Env.storage_ok env_b = true ->
  get_note note_id u db = Return n ->
  NoteUpdate.version upd_a = Note.version n ->
  NoteUpdate.version upd_b = Note.version n ->
  exists db',
    interleave env_a env_b [TurnA; TurnB; TurnA; TurnB]
      (Session.Start note_id upd_a u) (Session.Start note_id upd_b u) db
    = (Session.Done (Return (assign_update env_a n upd_a)),
       Session.Done (Return (assign_update env_b n upd_b)), db') /\
    get_note note_id u db' = Return (assign_update env_b n upd_b).
Proof.
  intros Hoka Hokb Hget Ha Hb. apply get_note_found in Hget.
  destruct (first_filter_Some _ _ _ Hget) as [Hin _].
  assert (Hex : existsb (has_id (Note.id n)) (DB.notes db) = true).
  { apply existsb_exists. exists n. split; [done|]. apply Z.eqb_refl. }
  set (db1 := DB.mk (map (write_row env_a (assign_update env_a n upd_a)) (DB.notes db))
                    (DB.users db)).
  assert (Hex1 : existsb (has_id (Note.id n)) (DB.notes db1) = true).
  { apply existsb_exists. exists (write_row env_a (assign_update env_a n upd_a) n).
    split; [by apply in_map|].
    unfold write_row, has_id; simpl. by rewrite !Z.eqb_refl. }
  cbn [interleave session_step]. rewrite Hget. cbn [session_step].
  rewrite Hget. cbn [session_step].
  rewrite (update_loaded_commits env_a n upd_a db Hoka Ha Hex).
  fold db1. rewrite (update_loaded_commits env_b n upd_b db1 Hokb Hb Hex1).
  eexists. split; [reflexivity|].
  apply get_note_found; simpl.
  rewrite !first_filter_map by (intros; apply owned_by_write_row).
  rewrite Hget; simpl. f_equal.
  unfold write_row, has_id; simpl. by rewrite !Z.eqb_refl.
Qed.

(** C1. Two updates of Alice's note 1, both presenting version 1, run in
    two processes; the second SELECT happens before the first commit. Both
    calls return 200 with version 2, nobody gets 409, and the stored row
    holds the second payload: the first update is lost. *)
Theorem interleaved_updates_lose_one :
  interleave (Sample.env 20 0) (Sample.env 30 0) [TurnA; TurnB; TurnA; TurnB]
    (Session.Start 1 Sample.update_a Sample.alice)
    (Session.Start 1 Sample.update_b Sample.alice) Sample.db1
  = (Session.Done (Return (Note.mk 1 "Update 1" (Some "from 1") 1 2 10 20)),
     Session.Done (Return (Note.mk 1 "Update 2" (Some "from 2") 1 2 10 30)),
     DB.mk [Note.mk 1 "Update 2" (Some "from 2") 1 2 10 30]
           [Sample.alice; Sample.bob]).
Proof. reflexivity. Qed.

(** ** Versions along a sequence of requests *)

(** One request, whoever sends it, leaves the version of a note that is
    still there as it was or one higher. *)
Lemma serve_version_step env req db note_id u n n' :
  pk_unique db ->
  get_note note_id u db = Return n ->
  get_note note_id u (serve env req db) = Return n' ->
  Note.version n' = Note.version n \/ Note.version n' = Note.version n + 1.
Proof.
  intros Hpk Hget Hget'. apply get_note_found in Hget, Hget'.
  destruct req as [u2 nd|u2|u2 id2|u2 id2 upd|u2 id2]; simpl in Hget'.
  - unfold create_note in Hget'.
    destruct (commit_insert _ _ db) as [db1|] eqn:Hc; simpl in Hget'.
    + unfold commit_insert in Hc. destruct (_ && _); [|discriminate].
      injection Hc as <-. simpl in Hget'.
      rewrite (first_filter_app _ _ _ _ Hget) in Hget'. left. congruence.
    + left. congruence.
  - left. congruence.
  - left. congruence.
  - destruct (update_note env id2 upd u2 db) as [[m|e] db1] eqn:Hupd;
      simpl in Hget'.
    + unfold update_note in Hupd.
      destruct (first (filter_by (owned_by id2 u2) _)) as [n2|] eqn:Hq2;
        [|discriminate].
      unfold update_loaded in Hupd. destruct (negb _); [discriminate|].
      unfold commit_update in Hupd. destruct (_ && _); [|discriminate].
      injection Hupd as <- <-. simpl in Hget'.
      rewrite first_filter_map in Hget' by (intros; apply owned_by_write_row).
      rewrite Hget in Hget'. simpl in Hget'. injection Hget' as <-.
      unfold write_row, has_id; simpl.
      destruct (Z.eqb_spec (Note.id n) (Note.id n2)) as [Hid|]; [|by left].
      right; simpl. f_equal.
      destruct (first_filter_Some _ _ _ Hget) as [Hn _].
      destruct (first_filter_Some _ _ _ Hq2) as [Hn2 _].
      by rewrite (pk_unique_same_id db n2 n Hpk Hn2 Hn Hid).
    + unfold update_note in Hupd.
      destruct (first (filter_by (owned_by id2 u2) _)) as [n2|].
      * unfold update_loaded in Hupd. destruct (negb _).
        -- injection Hupd as _ <-. left. congruence.
        -- destruct (commit_update _ _ db); [discriminate|].
           injection Hupd as _ <-. left. congruence.
      * injection Hupd as _ <-. left. congruence.
  - unfold delete_note in Hget'.
    destruct (first (filter_by (owned_by id2 u2) _)) as [n2|] eqn:Hq2;
      [|left; simpl in Hget'; congruence].
    unfold commit_delete in Hget'.
    destruct (Env.storage_ok env); simpl in Hget'; [|left; congruence].
    destruct (Z.eq_dec (Note.id n2) note_id) as [Hid|Hid].
    + exfalso. apply first_filter_Some in Hget' as [Hin Ho].
      apply List.filter_In in Hin as [_ Hin]. apply owned_by_spec in Ho as [Ho _].
      unfold has_id in Hin. rewrite Ho, <- Hid, Z.eqb_refl in Hin. discriminate.
    + rewrite <- filter_by_refine in Hget'; [left; congruence|].
      intros x _ Ho. apply owned_by_spec in Ho as [Ho _]. unfold has_id.
      destruct (Z.eqb_spec (Note.id x) (Note.id n2)); [congruence|done].
Qed.

(** C2. A note is created at version 1, and when its owner then updates it
    any number of times, each call presenting the version the previous call
    returned, every call succeeds, the k-th call returns version k + 1, and
    after n calls the stored version is n + 1. Whatever the call, a
    successful update returns the stored version plus one, and that is the
    version stored afterwards. No request of any kind moves the version of
    a note that is still there by anything but 0 or 1. *)
Theorem version_increments_by_one env0 nd u db0 n0 db1 steps :
  create_note env0 nd u db0 = (Return n0, db1) ->
  Forall (fun s => Env.storage_ok (fst s) = true) steps ->
  Note.version n0 = 1 /\
  (let '(rs, db') := update_chain steps (Note.id n0) u (Note.version n0) db1 in
   length rs = length steps /\
   (forall (k : nat) r, rs !! k = Some r ->
      exists m, r = Return m /\ Note.version m = Z.of_nat (S k) + 1) /\
   exists n', get_note (Note.id n0) u db' = Return n' /\
              Note.version n' = Z.of_nat (length steps) + 1) /\
  (forall env note_id upd u' db m db',
     update_note env note_id upd u' db = (Return m, db') ->
     exists n, get_note note_id u' db = Return n /\
               NoteUpdate.version upd = Note.version n /\
               Note.version m = Note.version n + 1 /\
               get_note note_id u' db' = Return m) /\
  (forall env req db note_id u' n n',
     pk_unique db ->
     get_note note_id u' db = Return n ->
     get_note note_id u' (serve env req db) = Return n' ->
     Note.version n' = Note.version n \/ Note.version n' = Note.version n + 1).
Proof.
  intros Hcreate Hok.
  destruct (create_note_success _ _ _ _ _ _ Hcreate) as (Hn0 & _ & _ & _ & Hget).
  assert (Hv0 : Note.version n0 = 1) by (by rewrite Hn0).
  split; [done|]. split; [|split; [|apply serve_version_step]].
  - pose proof (update_chain_spec steps (Note.id n0) u db1 n0 Hget Hok) as H.
    destruct (update_chain steps _ u _ db1) as [rs db'].
    destruct H as (Hlen & Hrs & n' & Hget' & Hv').
    split; [done|]. split.
    + intros k r Hk. destruct (Hrs k r Hk) as (m & -> & Hm).
      exists m. split; [done|lia].
    + exists n'. split; [done|lia].
  - intros env note_id upd u' db m db' Hupd.
    destruct (update_note_success _ _ _ _ _ _ _ Hupd) as (n & Hg & Hv & Hm & Hg').
    exists n. repeat split; try done. by rewrite Hm.
Qed.

(** * The statements at sample inputs *)

Lemma version_increments_by_one_witness :
  create_note (Sample.env 10 1) (NoteCreate.mk "x" (Some "y")) Sample.alice
    (DB.mk [] [Sample.alice; Sample.bob])
  = (Return Sample.note1, Sample.db1) /\
  Note.version Sample.note1 = 1 /\
  (let '(rs, db') :=
     update_chain [(Sample.env 20 0, NoteCreate.mk "x2" None);
                   (Sample.env 30 0, NoteCreate.mk "x3" (Some "z"))]
       1 Sample.alice 1 Sample.db1 in
   length rs = 2%nat /\
   exists n', get_note 1 Sample.alice db' = Return n' /\ Note.version n' = 3).
Proof.
  split; [reflexivity|].
  destruct (version_increments_by_one (Sample.env 10 1)
              (NoteCreate.mk "x" (Some "y")) Sample.alice
              (DB.mk [] [Sample.alice; Sample.bob]) Sample.note1 Sample.db1
              [(Sample.env 20 0, NoteCreate.mk "x2" None);
               (Sample.env 30 0, NoteCreate.mk "x3" (Some "z"))])
    as (Hv & Hchain & _).
  - reflexivity.
  - repeat constructor.
  - split; [exact Hv|].
    simpl in Hchain |- *.
    destruct Hchain as (Hlen & _ & Hn'). split; [exact Hlen|exact Hn'].
Defined.

Lemma foreign_note_invisible_witness :
  ~ In Sample.note1 (get_user_notes Sample.bob Sample.db1) /\
  get_note 1 Sample.bob Sample.db1 = not_found /\
  (forall env upd,
     update_note env 1 upd Sample.bob Sample.db1 = (not_found, Sample.db1)) /\
  (forall env,
     delete_note env 1 Sample.bob Sample.db1 = (not_found, Sample.db1)).
Proof.
  destruct (foreign_note_invisible Sample.db1 Sample.alice Sample.bob Sample.note1)
    as (Hlist & _ & Hget & Hupd & Hdel & _).
  - unfold pk_unique; simpl. apply NoDup_singleton.
  - simpl. left. reflexivity.
  - reflexivity.
  - simpl. lia.
  - split; [exact Hlist|]. split; [exact Hget|]. split; [exact Hupd|exact Hdel].
Defined.

Lemma stale_version_conflict_witness :
  exists e db',
    update_note (Sample.env 20 0) 1 (NoteUpdate.mk "late" None 7)
      Sample.alice Sample.db1 = (Raise e, db') /\
    HTTPException.status_code e = 409 /\
    HTTPException.detail e = conflict_detail /\
    db' = Sample.db1 /\
    get_note 1 Sample.alice db' = Return Sample.note1.
Proof.
  apply (stale_version_conflict (Sample.env 20 0) 1 (NoteUpdate.mk "late" None 7)
           Sample.alice Sample.db1 Sample.note1).
  - reflexivity.
  - simpl. lia.
Defined.

Lemma create_get_roundtrip_witness :
  (exists n db',
     create_note (Sample.env 10 1) (NoteCreate.mk "x" (Some "y")) Sample.alice
       DB.empty = (Return n, db') /\
     get_note (Note.id n) Sample.alice db' = Return n /\
     Note.version n = 1 /\ Note.title n = "x" /\ Note.content n = Some "y") /\
  (exists errors,
     post_notes (Sample.env 10 1) (note_body "" (Some "y")) Sample.alice DB.empty
     = (validation_exception_handler errors, DB.empty)).
Proof.
  split.
  - destruct (create_get_roundtrip (Sample.env 10 1) "x" (Some "y")
                Sample.alice DB.empty) as [Hgood _].
    + reflexivity.
    + intros r [].
    + destruct Hgood as (n & db' & _ & Hc & _ & Hg & Hv & Ht & Hcn).
      * unfold title_ok. simpl. lia.
      * exists n, db'. repeat split; assumption.
  - destruct (create_get_roundtrip (Sample.env 10 1) "" (Some "y")
                Sample.alice DB.empty) as [_ Hbad].
    + reflexivity.
    + intros r [].
    + destruct Hbad as (errors & _ & Hp & _).
      * unfold title_ok. simpl. lia.
      * exists errors. exact Hp.
Defined.

Lemma login_failures_identical_witness :
  login_user Sample.verify_password Sample.create_access_token
    (UserLogin.mk "alice" "wrong") Sample.db1
  = login_user Sample.verify_password Sample.create_access_token
      (UserLogin.mk "mallory" "secret1") Sample.db1 /\
  post_login Sample.verify_password Sample.create_access_token
    (UserLogin.mk "alice" "wrong") Sample.db1
  = post_login Sample.verify_password Sample.create_access_token
      (UserLogin.mk "mallory" "secret1") Sample.db1.
Proof.
  destruct (login_failures_identical Sample.verify_password
              Sample.create_access_token Sample.db1
              (UserLogin.mk "alice" "wrong") (UserLogin.mk "mallory" "secret1")
              Sample.alice) as (H1 & _ & H2 & _).
  - reflexivity.
  - reflexivity.
  - reflexivity.
  - split; [exact H1|exact H2].
Defined.

Lemma delete_is_final_witness :
  exists db',
    delete_note (Sample.env 40 0) 1 Sample.alice Sample.db1
    = (Return "Note deleted successfully", db') /\
    forall env' u',
      let db'' :=
        serve_all [(Sample.env 50 2,
                    Request.Create Sample.bob (NoteCreate.mk "b" None))] db' in
      get_note 1 u' db'' = not_found /\
      (forall upd, update_note env' 1 upd u' db'' = (not_found, db'')) /\
      delete_note env' 1 u' db'' = (not_found, db'').
Proof.
  destruct (delete_is_final (Sample.env 40 0) 1 Sample.alice Sample.db1 Sample.note1)
    as (db' & Hdel & Hafter).
  - reflexivity.
  - reflexivity.
  - exists db'. split; [exact Hdel|].
    intros env' u'.
    apply (Hafter [(Sample.env 50 2,
                    Request.Create Sample.bob (NoteCreate.mk "b" None))]).
    intros e u0 nd [Heq|[]]. injection Heq as <- _ _. simpl. lia.
Defined.

Lemma update_requires_title_and_version_witness :
  (exists errors,
     put_note (Sample.env 20 0) 1 {[ "content" := JStr "c"; "version" := JInt 1 ]}
       Sample.alice Sample.db1
     = (validation_exception_handler errors, Sample.db1)) /\
  NoteUpdate_validate Sample.body_without_content
  = inl (NoteUpdate.mk "t" None 1).
Proof.
  destruct update_requires_title_and_version as [Hreq Hopt]. split.
  - apply (Hreq (Sample.env 20 0) 1 _ Sample.alice Sample.db1 "title").
    + simpl. left. reflexivity.
    + reflexivity.
  - apply Hopt.
    + reflexivity.
    + unfold title_ok. simpl. lia.
    + reflexivity.
    + reflexivity.
Defined.

Lemma create_owner_and_version_fixed_witness :
  Note.user_id Sample.note1 = User.id Sample.alice /\
  Note.version Sample.note1 = 1 /\
  Note.id Sample.note1 = 1 /\
  DB.notes (DB.mk [Sample.note1] []) = DB.notes DB.empty ++ [Sample.note1] /\
  get_note 1 Sample.alice (DB.mk [Sample.note1] []) = Return Sample.note1 /\
  post_notes (Sample.env 10 1) Sample.body_with_extras Sample.alice DB.empty
  = post_notes (Sample.env 10 1) (note_body "x" (Some "y")) Sample.alice DB.empty.
Proof.
  destruct (create_owner_and_version_fixed (Sample.env 10 1)
              (note_body "x" (Some "y")) (NoteCreate.mk "x" (Some "y"))
              Sample.alice DB.empty Sample.note1
              (DB.mk [Sample.note1] []))
    as (Hu & Hv & Hi & Hnotes & _ & Hget & _ & Hsame).
  - reflexivity.
  - reflexivity.
  - split; [exact Hu|]. split; [exact Hv|]. split; [exact Hi|].
    split; [exact Hnotes|]. split; [exact Hget|].
    apply Hsame; reflexivity.
Defined.

(** * Further properties *)

(** ** What one handler does to the rest of the table *)

Lemma filter_by_map_fixed {A} (p : A -> bool) (f : A -> A) rows :
  (forall x, In x rows -> p (f x) = p x) ->
  (forall x, In x rows -> p x = true -> f x = x) ->
  filter_by p (map f rows) = filter_by p rows.
Proof.
  unfold filter_by. induction rows as [|r rows IH]; simpl; [done|].
  intros Hp Hfix.
  rewrite IH; [|intros; apply Hp; auto|intros; apply Hfix; auto].
  rewrite (Hp r (or_introl eq_refl)).
  destruct (p r) eqn:Hr; [|done].
  by rewrite (Hfix r (or_introl eq_refl) Hr).
Qed.

Lemma filter_by_comm {A} (p q : A -> bool) rows :
  filter_by p (filter_by q rows) = filter_by q (filter_by p rows).
Proof.
  unfold filter_by. induction rows as [|r rows IH]; simpl; [done|].
  destruct (q r) eqn:Hq, (p r) eqn:Hp; simpl; rewrite ?Hq, ?Hp, IH; done.
Qed.

Lemma write_row_other env note r :
  Note.id r <> Note.id note -> write_row env note r = r.
Proof.
  unfold write_row, has_id. intros H.
  by destruct (Z.eqb_spec (Note.id r) (Note.id note)).
Qed.

(** The database a call of [update_note] leaves, whatever it answers. *)
Lemma update_note_db env note_id upd u db :
  snd (update_note env note_id upd u db) = db \/
  exists n,
    first (filter_by (owned_by note_id u) (DB.notes db)) = Some n /\
    NoteUpdate.version upd = Note.version n /\
    snd (update_note env note_id upd u db)
    = DB.mk (map (write_row env (assign_update env n upd)) (DB.notes db))
            (DB.users db).
Proof.
  unfold update_note, update_loaded.
  destruct (first _) as [n|] eqn:Hq; [|by left].
  destruct (Z.eqb_spec (Note.version n) (NoteUpdate.version upd)); simpl; [|by left].
  unfold commit_update. destruct (_ && _); [|by left].
  right. exists n. by repeat split.
Qed.

(** The database a call of [delete_note] leaves. *)
Lemma delete_note_db env note_id u db :
  snd (delete_note env note_id u db) = db \/
  exists n,
    first (filter_by (owned_by note_id u) (DB.notes db)) = Some n /\
    snd (delete_note env note_id u db) = without note_id db.
Proof.
  unfold delete_note, commit_delete.
  destruct (first _) as [n|] eqn:Hq; [|by left].
  destruct (Env.storage_ok env); [|by left].
  right. exists n. split; [done|].
  apply first_filter_Some in Hq as [_ Ho]. apply owned_by_spec in Ho as [<- _].
  done.
Qed.

(** The database a call of [create_note] leaves. *)
Lemma create_note_db env nd u db :
  snd (create_note env nd u db) = db \/
  absent (Env.new_id env) db /\
  snd (create_note env nd u db)
  = DB.mk (DB.notes db ++
             [Note.mk (Env.new_id env) (NoteCreate.title nd) (NoteCreate.content nd)
                      (User.id u) 1 (Env.now env) (Env.now env)])
          (DB.users db).
Proof.
  destruct (create_note env nd u db) as [[n|e] db'] eqn:Hc.
  - destruct (create_note_success _ _ _ _ _ _ Hc) as (Hn & Hnotes & Husers & Habs & _).
    right. split; [done|]. simpl. destruct db' as [ns us]. simpl in *.
    by rewrite Hnotes, Husers, Hn.
  - left. unfold create_note in Hc. destruct (commit_insert _ _ _); [discriminate|].
    by injection Hc as _ <-.
Qed.

Lemma get_note_without_other note_id i u db :
  i <> note_id -> get_note i u (without note_id db) = get_note i u db.
Proof.
  intros Hi. unfold get_note, without; simpl.
  rewrite <- filter_by_refine; [done|].
  intros x _ Ho. apply owned_by_spec in Ho as [Ho _]. unfold has_id.
  destruct (Z.eqb_spec (Note.id x) note_id); [congruence|done].
Qed.

(** X1. On a working storage, when the owner presents the stored version,
    the update goes through and the owner reads back the new title and
    content, the version plus one and the commit's instant as [updated_at];
    id, owner and [created_at] are those of the note before. *)
Theorem update_stores_payload env note_id upd u db n :
  Env.storage_ok env = true ->
  get_note note_id u db = Return n ->
  NoteUpdate.version upd = Note.version n ->
  exists n' db',
    update_note env note_id upd u db = (Return n', db') /\
    get_note note_id u db' = Return n' /\
    Note.title n' = NoteUpdate.title upd /\
    Note.content n' = NoteUpdate.content upd /\
    Note.version n' = Note.version n + 1 /\
    Note.updated_at n' = Env.now env /\
    Note.id n' = Note.id n /\
    Note.user_id n' = Note.user_id n /\
    Note.created_at n' = Note.created_at n.
Proof.
  intros Hok Hget Hv.
  destruct (update_note_accepts env note_id upd u db n Hok Hget Hv)
    as (n' & db' & Hupd).
  destruct (update_note_success _ _ _ _ _ _ _ Hupd) as (n0 & Hg0 & _ & Hn' & Hg').
  assert (n0 = n) as -> by congruence.
  exists n', db'. rewrite Hn' in *. by repeat split.
Qed.

(** X2. Whatever [update_note] answers, it adds and removes no row, changes
    no row's id, owner or [created_at], leaves the users alone, and every
    note with another id reads as before, for every user. *)
Theorem update_leaves_other_notes env note_id upd u db :
  (forall i u', i <> note_id ->
     get_note i u' (snd (update_note env note_id upd u db)) = get_note i u' db) /\
  map Note.id (DB.notes (snd (update_note env note_id upd u db)))
  = map Note.id (DB.notes db) /\
  map Note.user_id (DB.notes (snd (update_note env note_id upd u db)))
  = map Note.user_id (DB.notes db) /\
  map Note.created_at (DB.notes (snd (update_note env note_id upd u db)))
  = map Note.created_at (DB.notes db) /\
  DB.users (snd (update_note env note_id upd u db)) = DB.users db.
Proof.
  destruct (update_note_db env note_id upd u db) as [->|(n & Hq & _ & ->)]; [done|].
  apply first_filter_Some in Hq as [_ Ho]. apply owned_by_spec in Ho as [Hid _].
  simpl. split; [|repeat split].
  - intros i u' Hi. unfold get_note; simpl.
    rewrite filter_by_map_fixed; [done| |].
    + intros; apply owned_by_write_row.
    + intros x _ Hx. apply owned_by_spec in Hx as [Hx _].
      apply write_row_other. simpl. congruence.
  - apply map_write_row_ids.
  - rewrite List.map_map. apply List.map_ext. intros r.
    unfold write_row. by destruct (has_id _ r).
  - rewrite List.map_map. apply List.map_ext. intros r.
    unfold write_row. by destruct (has_id _ r).
Qed.

Lemma length_filter_unique_id (rows : list Note.t) n :
  NoDup (map Note.id rows) -> In n rows ->
  length rows = S (length (filter_by (fun r => negb (has_id (Note.id n) r)) rows)).
Proof.
  unfold filter_by, has_id.
  induction rows as [|r rows IH]; simpl; [done|].
  intros Hnd Hin. apply NoDup_cons in Hnd as [Hr Hnd].
  destruct Hin as [->|Hin].
  - rewrite Z.eqb_refl; simpl. f_equal.
    f_equal. symmetry. apply List.forallb_filter_id, List.forallb_forall.
    intros x Hx. destruct (Z.eqb_spec (Note.id x) (Note.id n)) as [Heq|]; [|done].
    destruct Hr. apply list_elem_of_In. rewrite <- Heq. by apply in_map.
  - destruct (Z.eqb_spec (Note.id r) (Note.id n)) as [Heq|]; simpl.
    + destruct Hr. apply list_elem_of_In. rewrite Heq. by apply in_map.
    + f_equal. by apply IH.
Qed.

(** X3. A successful delete removes the rows with that id and nothing
    else: every note with another id reads as before, every user's list is
    the old list without that id, the users are untouched, and under the
    primary-key constraint the table is exactly one row shorter. *)
Theorem delete_removes_one_note env note_id u db msg db' :
  delete_note env note_id u db = (Return msg, db') ->
  (forall i u', i <> note_id -> get_note i u' db' = get_note i u' db) /\
  (forall u',
     get_user_notes u' db'
     = filter_by (fun r => negb (has_id note_id r)) (get_user_notes u' db)) /\
  DB.users db' = DB.users db /\
  (pk_unique db -> length (DB.notes db) = S (length (DB.notes db'))).
Proof.
  intros Hdel.
  assert (Hq : exists n,
    first (filter_by (owned_by note_id u) (DB.notes db)) = Some n).
  { unfold delete_note in Hdel. destruct (first _) as [n|]; [eauto|discriminate]. }
  destruct Hq as [n Hq].
  destruct (delete_note_success _ _ _ _ _ _ Hdel) as [-> _].
  split; [intros; by apply get_note_without_other|].
  split; [|split; [done|]].
  - intros u'. unfold get_user_notes, all, without; simpl. apply filter_by_comm.
  - intros Hpk. apply first_filter_Some in Hq as [Hin Ho].
    apply owned_by_spec in Ho as [<- _].
    by apply length_filter_unique_id.
Qed.

(** X4. A successful create puts the new note at the end of its owner's
    list, leaves every other user's list as it was, and every note that
    could be read before reads the same afterwards. *)
Theorem create_appends_to_owner_list env nd u db n db' :
  create_note env nd u db = (Return n, db') ->
  get_user_notes u db' = get_user_notes u db ++ [n] /\
  (forall u', User.id u' <> User.id u ->
     get_user_notes u' db' = get_user_notes u' db) /\
  (forall i u' m, get_note i u' db = Return m -> get_note i u' db' = Return m).
Proof.
  intros Hc.
  destruct (create_note_success _ _ _ _ _ _ Hc) as (Hn & Hnotes & _ & _ & _).
  unfold get_user_notes, all, filter_by. rewrite Hnotes, List.filter_app.
  assert (Hu : Note.user_id n = User.id u) by (by rewrite Hn).
  split; [|split].
  - cbn [List.filter]. by rewrite Hu, Z.eqb_refl.
  - intros u' Hu'. rewrite List.filter_app. cbn [List.filter]. rewrite Hu.
    destruct (Z.eqb_spec (User.id u) (User.id u')); [congruence|].
    by rewrite List.app_nil_r.
  - intros i u' m Hg. apply get_note_found in Hg. apply get_note_found.
    rewrite Hnotes. by apply first_filter_app.
Qed.

(** X5. After a successful update, a second update that presents the same,
    now stale, version (the same request sent again, or another writer who
    read the note before the first update) is refused with 409 and changes
    nothing: the owner still reads what the first update stored. *)
Theorem second_update_with_same_version_conflicts
    env env2 note_id upd upd2 u db n' db' :
  update_note env note_id upd u db = (Return n', db') ->
  NoteUpdate.version upd2 = NoteUpdate.version upd ->
  update_note env2 note_id upd2 u db'
  = (Raise (http_error HTTP_409_CONFLICT conflict_detail), db') /\
  get_note note_id u db' = Return n' /\
  Note.title n' = NoteUpdate.title upd /\
  Note.content n' = NoteUpdate.content upd.
Proof.
  intros Hupd Hsame.
  destruct (update_note_success _ _ _ _ _ _ _ Hupd) as (n & _ & Hv & Hn' & Hg').
  subst n'. split; [|done].
  apply (update_note_conflict env2 note_id upd2 u db' _ Hg').
  rewrite Hsame, Hv. simpl. lia.
Qed.

(** ** One user's requests and another user's notes *)

Lemma owned_by_split note_id u (rows : list Note.t) :
  filter_by (owned_by note_id u) rows
  = filter_by (has_id note_id)
      (filter_by (fun n => Note.user_id n =? User.id u) rows).
Proof.
  unfold filter_by, owned_by, has_id.
  induction rows as [|r rows IH]; simpl; [done|].
  destruct (Note.user_id r =? User.id u); simpl;
    destruct (Note.id r =? note_id); simpl; by rewrite IH.
Qed.

Lemma get_note_from_list note_id u db db' :
  get_user_notes u db' = get_user_notes u db ->
  get_note note_id u db' = get_note note_id u db.
Proof.
  unfold get_user_notes, all, get_note. intros H.
  by rewrite !owned_by_split, H.
Qed.

(** X6. Under the primary-key constraint a request sent by one user,
    whatever it is and however it ends, changes nothing another user can
    see: the other user's list and every get of the other user are as
    before. *)
Theorem other_users_requests_invisible env req db B :
  pk_unique db ->
  User.id (request_user req) <> User.id B ->
  get_user_notes B (serve env req db) = get_user_notes B db /\
  (forall i, get_note i B (serve env req db) = get_note i B db).
Proof.
  intros Hpk HAB.
  assert (Hlist : get_user_notes B (serve env req db) = get_user_notes B db).
  { destruct req as [u nd|u|u i|u i upd|u i]; simpl in *; try done.
    - destruct (create_note_db env nd u db) as [->|[_ ->]]; [done|].
      unfold get_user_notes, all, filter_by; simpl.
      rewrite List.filter_app; simpl.
      destruct (Z.eqb_spec (User.id u) (User.id B)); [congruence|].
      by rewrite List.app_nil_r.
    - destruct (update_note_db env i upd u db) as [->|(n & Hq & _ & ->)]; [done|].
      apply first_filter_Some in Hq as [Hn Ho].
      apply owned_by_spec in Ho as [_ Hu].
      unfold get_user_notes, all; simpl.
      apply filter_by_map_fixed.
      + intros x _. unfold write_row. by destruct (has_id _ x).
      + intros x Hx Hxu. apply Z.eqb_eq in Hxu. apply write_row_other; simpl.
        intros Hid. rewrite (pk_unique_same_id db n x Hpk Hn Hx Hid) in Hxu.
        congruence.
    - destruct (delete_note_db env i u db) as [->|(n & Hq & ->)]; [done|].
      apply first_filter_Some in Hq as [Hn Ho].
      apply owned_by_spec in Ho as [Hi Hu].
      unfold get_user_notes, all, without; simpl. symmetry.
      apply filter_by_refine. intros x Hx Hxu. apply Z.eqb_eq in Hxu.
      unfold has_id. destruct (Z.eqb_spec (Note.id x) i) as [Hid|]; [|done].
      rewrite <- Hi in Hid.
      rewrite (pk_unique_same_id db n x Hpk Hn Hx Hid) in Hxu. congruence. }
  split; [done|]. intros i. by apply get_note_from_list.
Qed.

(** ** Where the rows of the table come from *)

(** A row found after a request was there before, or is the row a create
    inserted, or is a row an update rewrote. *)
Lemma serve_rows env req db r' :
  In r' (DB.notes (serve env req db)) ->
  In r' (DB.notes db) \/
  (Note.version r' = 1 /\ Note.created_at r' = Env.now env /\
   Note.updated_at r' = Env.now env /\ Note.id r' = Env.new_id env /\
   absent (Env.new_id env) db) \/
  (exists r n,
     In r (DB.notes db) /\ In n (DB.notes db) /\ Note.id r = Note.id n /\
     Note.id r' = Note.id r /\ Note.user_id r' = Note.user_id r /\
     Note.created_at r' = Note.created_at r /\
     Note.version r' = Note.version n + 1 /\
     Note.updated_at r' = Env.now env).
Proof.
  destruct req as [u nd|u|u i|u i upd|u i]; simpl; auto.
  - destruct (create_note_db env nd u db) as [->|[Habs ->]]; [auto|].
    simpl. rewrite List.in_app_iff. intros [?|[<-|[]]]; [auto|].
    right; left. by repeat split.
  - destruct (update_note_db env i upd u db) as [->|(n & Hq & _ & ->)]; [auto|].
    apply first_filter_Some in Hq as [Hn _]. simpl.
    rewrite List.in_map_iff. intros (r & <- & Hr).
    unfold write_row, has_id; simpl.
    destruct (Z.eqb_spec (Note.id r) (Note.id n)) as [Hid|]; [|auto].
    right; right. exists r, n. by repeat split.
  - destruct (delete_note_db env i u db) as [->|(n & _ & ->)]; [auto|].
    simpl. unfold filter_by. rewrite List.filter_In. intros [? _]. auto.
Qed.

(** X7. In every database reached from the empty one by any sequence of
    requests, every note has a version of at least 1. *)
Theorem versions_stay_positive trace r :
  In r (DB.notes (serve_all trace DB.empty)) -> 1 <= Note.version r.
Proof.
  assert (H : forall db,
    (forall x, In x (DB.notes db) -> 1 <= Note.version x) ->
    forall x, In x (DB.notes (serve_all trace db)) -> 1 <= Note.version x).
  { induction trace as [|[env req] trace IH]; intros db Hdb; [done|].
    simpl. apply IH. intros x Hx.
    destruct (serve_rows env req db x Hx)
      as [Hin|[(Hv & _)|(r0 & n & _ & Hn & _ & _ & _ & _ & Hv & _)]].
    - by apply Hdb.
    - lia.
    - specialize (Hdb n Hn). lia. }
  apply H. intros x [].
Qed.

(** X8. Under the primary-key constraint no request changes the owner or
    the creation time of a note: a row found after the request under the id
    of a row that was there before has that row's [user_id] and
    [created_at]. *)
Theorem owner_and_creation_time_fixed env req db r r' :
  pk_unique db ->
  In r (DB.notes db) ->
  In r' (DB.notes (serve env req db)) ->
  Note.id r' = Note.id r ->
  Note.user_id r' = Note.user_id r /\ Note.created_at r' = Note.created_at r.
Proof.
  intros Hpk Hr Hr' Hid.
  destruct (serve_rows env req db r' Hr')
    as [Hin|[(_ & _ & _ & Hnew & Habs)|(r0 & n & Hr0 & _ & _ & Hid0 & Hu & Hc & _)]].
  - by rewrite (pk_unique_same_id db r r' Hpk Hr Hin Hid).
  - destruct (Habs r Hr). congruence.
  - assert (r0 = r) as ->.
    { apply (pk_unique_same_id db r r0 Hpk Hr Hr0). congruence. }
    done.
Qed.

Lemma serve_all_timestamps trace : forall t db,
  clock_from t trace ->
  (forall x, In x (DB.notes db) ->
     Note.created_at x <= Note.updated_at x /\ Note.updated_at x <= t) ->
  forall x, In x (DB.notes (serve_all trace db)) ->
    Note.created_at x <= Note.updated_at x.
Proof.
  induction trace as [|[env req] trace IH]; intros t db Hclock Hdb x Hx.
  - by apply Hdb.
  - destruct Hclock as [Ht Hclock]. simpl in Hx.
    apply (IH (Env.now env) (serve env req db) Hclock); [|done].
    intros y Hy.
    destruct (serve_rows env req db y Hy)
      as [Hin|[(_ & Hc & Hu & _)|(r0 & n & Hr0 & _ & _ & _ & _ & Hc & _ & Hu)]].
    + destruct (Hdb y Hin). lia.
    + lia.
    + destruct (Hdb r0 Hr0). lia.
Qed.

(** X9. When the clock the database reads never runs backwards along a
    sequence of requests that starts on the empty database, every note in
    the resulting table has [created_at] no later than [updated_at]. *)
Theorem timestamps_ordered t trace r :
  clock_from t trace ->
  In r (DB.notes (serve_all trace DB.empty)) ->
  Note.created_at r <= Note.updated_at r.
Proof.
  intros Hclock. apply (serve_all_timestamps trace t DB.empty Hclock).
  intros x [].
Qed.

(** ** What the create route answers *)


(** ** What the schemas accept *)

Lemma validate_title_inl (body : gmap string json) t :
  validate_title body = inl t <->
  body !! "title" = Some (JStr t) /\ title_ok t.
Proof.
  unfold validate_title, title_ok.
  destruct (body !! "title") as [[| |s| |]|]; try (split; [discriminate|intros [[=] _]]).
  destruct (Nat.ltb_spec (String.length s) 1).
  { split; [discriminate|]. intros [[= ->] ?]. lia. }
  destruct (Nat.ltb_spec 200 (String.length s)).
  { split; [discriminate|]. intros [[= ->] ?]. lia. }
  split; [intros [= ->]; split; [done|lia]|by intros [[= ->] _]].
Qed.

Lemma validate_content_inl (body : gmap string json) c :
  validate_content body = inl c <->
  match body !! "content" with
  | None | Some JNull => c = None
  | Some (JStr s) => c = Some s
  | Some _ => False
  end.
Proof.
  unfold validate_content.
  destruct (body !! "content") as [[| |s| |]|];
    split; try discriminate; try done; try (by intros [= <-]); by intros ->.
Qed.

(** X12. [NoteCreate] accepts exactly the bodies whose [title] is a string
    of 1 to 200 characters and whose [content] is absent, null (both giving
    [None]) or a string. Other keys play no part. *)
Theorem note_create_accepts_iff (body : gmap string json) nd :
  NoteCreate_validate body = inl nd <->
  body !! "title" = Some (JStr (NoteCreate.title nd)) /\
  title_ok (NoteCreate.title nd) /\
  match body !! "content" with
  | None | Some JNull => NoteCreate.content nd = None
  | Some (JStr s) => NoteCreate.content nd = Some s
  | Some _ => False
  end.
Proof.
  rewrite <- Logic.and_assoc, <- validate_title_inl, <- validate_content_inl.
  unfold NoteCreate_validate. destruct nd as [t c]; simpl.
  destruct (validate_title body), (validate_content body); split;
    try discriminate; try (by intros [= -> ->]);
    try (by intros [[= ->] [= ->]]); by intros [[=] [=]].
Qed.

Lemma validate_username_inl (body : gmap string json) s :
  validate_username body = inl s <->
  body !! "username" = Some (JStr s) /\ (3 <= String.length s <= 50)%nat.
Proof.
  unfold validate_username.
  destruct (body !! "username") as [[| |x| |]|];
    try (split; [discriminate|intros [[=] _]]).
  destruct (Nat.ltb_spec (String.length x) 3).
  { split; [discriminate|]. intros [[= ->] ?]. lia. }
  destruct (Nat.ltb_spec 50 (String.length x)).
  { split; [discriminate|]. intros [[= ->] ?]. lia. }
  split; [intros [= ->]; split; [done|lia]|by intros [[= ->] _]].
Qed.

Lemma validate_password_inl (body : gmap string json) s :
  validate_password body = inl s <->
  body !! "password" = Some (JStr s) /\ (6 <= String.length s)%nat.
Proof.
  unfold validate_password.
  destruct (body !! "password") as [[| |x| |]|];
    try (split; [discriminate|intros [[=] _]]).
  destruct (Nat.ltb_spec (String.length x) 6).
  { split; [discriminate|]. intros [[= ->] ?]. lia. }
  split; [intros [= ->]; split; [done|lia]|by intros [[= ->] _]].
Qed.

Lemma validate_str_inl field (body : gmap string json) s :
  validate_str field body = inl s <-> body !! field = Some (JStr s).
Proof.
  unfold validate_str.
  destruct (body !! field) as [[| |x| |]|];
    split; try discriminate; by intros [= ->].
Qed.

(** X13. Registration accepts a body exactly when [username] is a string
    of 3 to 50 characters and [password] a string of at least 6; login
    accepts every body whose [username] and [password] are strings, of any
    length, the empty string included. *)
Theorem user_schemas_accept_iff (body : gmap string json) user_data creds :
  (UserCreate_validate body = inl user_data <->
   (body !! "username" = Some (JStr (UserCreate.username user_data)) /\
    (3 <= String.length (UserCreate.username user_data) <= 50)%nat) /\
   body !! "password" = Some (JStr (UserCreate.password user_data)) /\
   (6 <= String.length (UserCreate.password user_data))%nat) /\
  (UserLogin_validate body = inl creds <->
   body !! "username" = Some (JStr (UserLogin.username creds)) /\
   body !! "password" = Some (JStr (UserLogin.password creds))).
Proof.
  split.
  - rewrite <- validate_username_inl, <- validate_password_inl.
    unfold UserCreate_validate. destruct user_data as [n p]; simpl.
    destruct (validate_username body), (validate_password body); split;
      try discriminate; try (by intros [= -> ->]);
      try (by intros [[= ->] [= ->]]); by intros [[=] [=]].
  - rewrite <- !validate_str_inl.
    unfold UserLogin_validate. destruct creds as [n p]; simpl.
    destruct (validate_str "username" body), (validate_str "password" body); split;
      try discriminate; try (by intros [= -> ->]);
      try (by intros [[= ->] [= ->]]); by intros [[=] [=]].
Qed.

(** ** Registration and login *)

Lemma existsb_username_false name (users : list User.t) :
  existsb (fun u => String.eqb (User.username u) name) users = false <->
  (forall x, In x users -> User.username x <> name).
Proof.
  induction users as [|r users IH]; simpl.
  - split; [intros _ x []|reflexivity].
  - rewrite orb_false_iff, IH, String.eqb_neq. split.
    + intros [H1 H2] x [<-|Hx]; auto.
    + intros H. split; [apply H; auto|]. intros x Hx. apply H. auto.
Qed.

Lemma existsb_user_id_false i (users : list User.t) :
  existsb (fun u => User.id u =? i) users = false <->
  (forall x, In x users -> User.id x <> i).
Proof.
  induction users as [|r users IH]; simpl.
  - split; [intros _ x []|reflexivity].
  - rewrite orb_false_iff, IH, Z.eqb_neq. split.
    + intros [H1 H2] x [<-|Hx]; auto.
    + intros H. split; [apply H; auto|]. intros x Hx. apply H. auto.
Qed.

(** The database a call of [register_user] leaves. *)
Lemma register_user_db hash_password env salt user_data db :
  (snd (register_user hash_password env salt user_data db) = db /\
   exists e, fst (register_user hash_password env salt user_data db) = Raise e) \/
  (Env.storage_ok env = true /\
   (forall x, In x (DB.users db) -> User.id x <> Env.new_id env) /\
   (forall x, In x (DB.users db) ->
      User.username x <> UserCreate.username user_data) /\
   register_user hash_password env salt user_data db
   = (Return ("User created successfully", Env.new_id env),
      DB.mk (DB.notes db)
            (DB.users db ++
               [User.mk (Env.new_id env) (UserCreate.username user_data)
                        (hash_password salt (UserCreate.password user_data))
                        (Env.now env)]))).
Proof.
  unfold register_user, commit_insert_user; simpl.
  destruct (Env.storage_ok env); simpl; [|left; eauto].
  destruct (existsb (fun u => User.id u =? _) _) eqn:Hid; simpl; [left; eauto|].
  destruct (existsb (fun u => String.eqb _ _) _) eqn:Hname; simpl; [left; eauto|].
  right. rewrite existsb_user_id_false in Hid.
  rewrite existsb_username_false in Hname. done.
Qed.

Lemma username_unique_same db x y :
  usernames_unique db -> In x (DB.users db) -> In y (DB.users db) ->
  User.username x = User.username y -> x = y.
Proof.
  unfold usernames_unique. induction (DB.users db) as [|r users IH]; simpl; [done|].
  intros Hnd Hx Hy Hname. apply NoDup_cons in Hnd as [Hr Hnd].
  destruct Hx as [->|Hx], Hy as [->|Hy]; [done| | |by apply IH].
  - destruct Hr. apply list_elem_of_In. rewrite Hname. by apply in_map.
  - destruct Hr. apply list_elem_of_In. rewrite <- Hname. by apply in_map.
Qed.

(** X15. Whoever registers can log in: when the password check accepts
    every hash [hash_password] makes of the same password, a successful
    registration is followed by a successful login with the same username
    and password, and the token is the one issued for the new user's id and
    username. *)
Theorem register_then_login hash_password verify_password create_access_token
    env salt user_data db msg user_id db' :
  (forall s p, verify_password p (hash_password s p) = true) ->
  register_user hash_password env salt user_data db = (Return (msg, user_id), db') ->
  login_user verify_password create_access_token
    (UserLogin.mk (UserCreate.username user_data) (UserCreate.password user_data)) db'
  = Return (Token.mk (create_access_token user_id (UserCreate.username user_data))
                     "bearer").
Proof.
  intros Hverify Hreg.
  destruct (register_user_db hash_password env salt user_data db)
    as [[_ [e Hraise]]|(_ & _ & Hname & Heq)].
  { rewrite Hreg in Hraise. discriminate. }
  rewrite Heq in Hreg. injection Hreg as <- <- <-.
  unfold login_user; simpl.
  rewrite first_filter_app_None.
  - simpl. rewrite String.eqb_refl; simpl. by rewrite Hverify.
  - apply first_filter_None. intros x Hx. apply String.eqb_neq. by apply Hname.
Qed.

(** X16. On a working storage, registering a username that some user
    already has raises 400 "Username already exists" and changes
    nothing. *)
Theorem register_duplicate_username hash_password env salt user_data db x :
  Env.storage_ok env = true ->
  In x (DB.users db) ->
  User.username x = UserCreate.username user_data ->
  register_user hash_password env salt user_data db
  = (Raise (http_error HTTP_400_BAD_REQUEST "Username already exists"), db).
Proof.
  intros Hok Hx Hname. unfold register_user, commit_insert_user; simpl.
  rewrite Hok; simpl.
  assert (Hex : existsb (fun u => String.eqb (User.username u)
                                    (UserCreate.username user_data))
                        (DB.users db) = true).
  { apply existsb_exists. exists x. split; [done|]. by apply String.eqb_eq. }
  rewrite Hex, orb_true_r. done.
Qed.

(** X17. Registration keeps the constraints of the users table and only
    ever adds: usernames and ids stay unique, every user who was there is
    still there, and the notes are untouched. *)
Theorem register_keeps_constraints hash_password env salt user_data db :
  usernames_unique db ->
  NoDup (map User.id (DB.users db)) ->
  usernames_unique (snd (register_user hash_password env salt user_data db)) /\
  NoDup (map User.id
           (DB.users (snd (register_user hash_password env salt user_data db)))) /\
  (forall x, In x (DB.users db) ->
     In x (DB.users (snd (register_user hash_password env salt user_data db)))) /\
  DB.notes (snd (register_user hash_password env salt user_data db)) = DB.notes db.
Proof.
  intros Hnames Hids.
  destruct (register_user_db hash_password env salt user_data db)
    as [[-> _]|(_ & Hid & Hname & ->)]; [done|].
  unfold usernames_unique; simpl. rewrite !List.map_app; simpl.
  split; [|split; [|split; [|done]]].
  - apply NoDup_app. split; [done|]. split; [|apply NoDup_singleton].
    intros n Hn Hn'. apply list_elem_of_singleton in Hn'. subst n.
    apply list_elem_of_In, List.in_map_iff in Hn as (y & Hy & Hin).
    by destruct (Hname y Hin).
  - apply NoDup_app. split; [done|]. split; [|apply NoDup_singleton].
    intros n Hn Hn'. apply list_elem_of_singleton in Hn'. subst n.
    apply list_elem_of_In, List.in_map_iff in Hn as (y & Hy & Hin).
    by destruct (Hid y Hin).
  - intros y Hy. apply List.in_app_iff. by left.
Qed.

(** X18. A registration, however it ends, changes no login under another
    username: such a login gets the answer it got before. *)
Theorem register_keeps_other_logins hash_password verify_password
    create_access_token env salt user_data creds db :
  UserLogin.username creds <> UserCreate.username user_data ->
  login_user verify_password create_access_token creds
    (snd (register_user hash_password env salt user_data db))
  = login_user verify_password create_access_token creds db.
Proof.
  intros Hname.
  destruct (register_user_db hash_password env salt user_data db)
    as [[-> _]|(_ & _ & _ & ->)]; [done|].
  unfold login_user; simpl.
  unfold first, filter_by. rewrite List.filter_app; simpl.
  destruct (String.eqb_spec (UserCreate.username user_data)
                            (UserLogin.username creds)); [congruence|].
  by rewrite List.app_nil_r.
Qed.

(** X19. With unique usernames a login succeeds exactly when some user has
    the username and the password verifies against that user's hash, and
    the token is then the one issued for that user's id and username, with
    type "bearer". *)
Theorem login_succeeds_iff verify_password create_access_token creds db tok :
  usernames_unique db ->
  login_user verify_password create_access_token creds db = Return tok <->
  exists x,
    In x (DB.users db) /\
    User.username x = UserLogin.username creds /\
    verify_password (UserLogin.password creds) (User.password_hash x) = true /\
    tok = Token.mk (create_access_token (User.id x) (User.username x)) "bearer".
Proof.
  intros Hnames. unfold login_user. split.
  - destruct (first _) as [x|] eqn:Hq; [|discriminate].
    apply first_filter_Some in Hq as [Hx Hname]. apply String.eqb_eq in Hname.
    destruct (verify_password _ _) eqn:Hv; simpl; [|discriminate].
    intros [= <-]. exists x. done.
  - intros (x & Hx & Hname & Hv & ->).
    destruct (first _) as [y|] eqn:Hq.
    + apply first_filter_Some in Hq as [Hy Hname']. apply String.eqb_eq in Hname'.
      assert (y = x) as ->.
      { apply (username_unique_same db); try done. congruence. }
      by rewrite Hv.
    + rewrite first_filter_None in Hq. specialize (Hq x Hx).
      apply String.eqb_neq in Hq. done.
Qed.

(** ** What the auth routes answer *)


(** ** List and get *)

(** X22. Under the primary-key constraint list and get agree: a note is in
    a user's list exactly when that user's get on the note's id returns
    it. *)
Theorem list_and_get_agree u db n :
  pk_unique db ->
  In n (get_user_notes u db) <-> get_note (Note.id n) u db = Return n.
Proof.
  intros Hpk. unfold get_user_notes, all, filter_by.
  rewrite List.filter_In, Z.eqb_eq, get_note_found. split.
  - intros [Hn Hu].
    destruct (first (filter_by (owned_by (Note.id n) u) (DB.notes db)))
      as [m|] eqn:Hq.
    + apply first_filter_Some in Hq as [Hm Ho]. apply owned_by_spec in Ho as [Hid _].
      by rewrite (pk_unique_same_id db n m Hpk Hn Hm Hid).
    + rewrite first_filter_None in Hq. specialize (Hq n Hn).
      unfold owned_by in Hq. rewrite Hu, !Z.eqb_refl in Hq. discriminate.
  - intros Hq. apply first_filter_Some in Hq as [Hn Ho].
    apply owned_by_spec in Ho as [_ Hu]. done.
Qed.

(** * The further properties at sample inputs *)

Lemma update_stores_payload_witness :
  exists n' db',
    update_note (Sample.env 20 0) 1 Sample.update_a Sample.alice Fixture.db2
    = (Return n', db') /\
    get_note 1 Sample.alice db' = Return n' /\
    Note.title n' = "Update 1" /\ Note.content n' = Some "from 1" /\
    Note.version n' = 2 /\ Note.updated_at n' = 20 /\
    Note.id n' = 1 /\ Note.user_id n' = 1 /\ Note.created_at n' = 10.
Proof.
  apply (update_stores_payload (Sample.env 20 0) 1 Sample.update_a Sample.alice
           Fixture.db2 Sample.note1); reflexivity.
Defined.

Lemma delete_removes_one_note_witness :
  delete_note (Sample.env 40 0) 1 Sample.alice Fixture.db2
  = (Return "Note deleted successfully", DB.mk [Fixture.note2] [Sample.alice; Sample.bob]) /\
  get_note 2 Sample.bob (DB.mk [Fixture.note2] [Sample.alice; Sample.bob])
  = get_note 2 Sample.bob Fixture.db2 /\
  length (DB.notes Fixture.db2) = 2%nat.
Proof.
  split; [reflexivity|].
  destruct (delete_removes_one_note (Sample.env 40 0) 1 Sample.alice Fixture.db2
              "Note deleted successfully"
              (DB.mk [Fixture.note2] [Sample.alice; Sample.bob]))
    as (Hget & _ & _ & Hlen).
  - reflexivity.
  - split.
    + apply Hget. lia.
    + apply Hlen. unfold pk_unique. simpl.
      apply NoDup_cons. split; [|apply NoDup_singleton].
      intros H. apply list_elem_of_singleton in H. discriminate H.
Defined.

Lemma create_appends_to_owner_list_witness :
  get_user_notes Sample.bob
    (DB.mk [Sample.note1; Fixture.note2; Note.mk 3 "c" None 2 1 50 50]
           [Sample.alice; Sample.bob])
  = get_user_notes Sample.bob Fixture.db2 ++ [Note.mk 3 "c" None 2 1 50 50] /\
  get_user_notes Sample.alice
    (DB.mk [Sample.note1; Fixture.note2; Note.mk 3 "c" None 2 1 50 50]
           [Sample.alice; Sample.bob])
  = get_user_notes Sample.alice Fixture.db2.
Proof.
  destruct (create_appends_to_owner_list (Sample.env 50 3) (NoteCreate.mk "c" None)
              Sample.bob Fixture.db2 (Note.mk 3 "c" None 2 1 50 50)
              (DB.mk [Sample.note1; Fixture.note2; Note.mk 3 "c" None 2 1 50 50]
                     [Sample.alice; Sample.bob]))
    as (Hown & Hother & _).
  - reflexivity.
  - split; [exact Hown|]. apply Hother. simpl. lia.
Defined.

Lemma second_update_with_same_version_conflicts_witness :
  update_note (Sample.env 30 0) 1 Sample.update_b Sample.alice
    (DB.mk [Note.mk 1 "Update 1" (Some "from 1") 1 2 10 20] [Sample.alice; Sample.bob])
  = (Raise (http_error 409 conflict_detail),
     DB.mk [Note.mk 1 "Update 1" (Some "from 1") 1 2 10 20] [Sample.alice; Sample.bob]) /\
  get_note 1 Sample.alice
    (DB.mk [Note.mk 1 "Update 1" (Some "from 1") 1 2 10 20] [Sample.alice; Sample.bob])
  = Return (Note.mk 1 "Update 1" (Some "from 1") 1 2 10 20).
Proof.
  destruct (second_update_with_same_version_conflicts (Sample.env 20 0)
              (Sample.env 30 0) 1 Sample.update_a Sample.update_b Sample.alice
              Sample.db1 (Note.mk 1 "Update 1" (Some "from 1") 1 2 10 20)
              (DB.mk [Note.mk 1 "Update 1" (Some "from 1") 1 2 10 20]
                     [Sample.alice; Sample.bob]))
    as (Hconflict & Hget & _).
  - reflexivity.
  - reflexivity.
  - split; [exact Hconflict|exact Hget].
Defined.

Lemma other_users_requests_invisible_witness :
  get_user_notes Sample.bob
    (serve (Sample.env 40 0) (Request.Delete Sample.alice 1) Fixture.db2)
  = get_user_notes Sample.bob Fixture.db2 /\
  get_note 2 Sample.bob
    (serve (Sample.env 40 0) (Request.Delete Sample.alice 1) Fixture.db2)
  = get_note 2 Sample.bob Fixture.db2.
Proof.
  destruct (other_users_requests_invisible (Sample.env 40 0)
              (Request.Delete Sample.alice 1) Fixture.db2 Sample.bob)
    as [Hlist Hget].
  - unfold pk_unique. simpl.
    apply NoDup_cons. split; [|apply NoDup_singleton].
    intros H. apply list_elem_of_singleton in H. discriminate H.
  - simpl. lia.
  - split; [exact Hlist|apply Hget].
Defined.

Lemma versions_stay_positive_witness :
  1 <= Note.version (Note.mk 1 "Update 1" (Some "from 1") 1 2 10 20).
Proof.
  apply (versions_stay_positive
           [(Sample.env 10 1,
             Request.Create Sample.alice (NoteCreate.mk "x" (Some "y")));
            (Sample.env 20 0, Request.Update Sample.alice 1 Sample.update_a)]).
  simpl. left. reflexivity.
Defined.

Lemma owner_and_creation_time_fixed_witness :
  Note.user_id (Note.mk 1 "Update 1" (Some "from 1") 1 2 10 20)
  = Note.user_id Sample.note1 /\
  Note.created_at (Note.mk 1 "Update 1" (Some "from 1") 1 2 10 20)
  = Note.created_at Sample.note1.
Proof.
  apply (owner_and_creation_time_fixed (Sample.env 20 0)
           (Request.Update Sample.alice 1 Sample.update_a) Fixture.db2).
  - unfold pk_unique. simpl.
    apply NoDup_cons. split; [|apply NoDup_singleton].
    intros H. apply list_elem_of_singleton in H. discriminate H.
  - simpl. left. reflexivity.
  - simpl. left. reflexivity.
  - reflexivity.
Defined.

Lemma timestamps_ordered_witness :
  Note.created_at (Note.mk 1 "Update 1" (Some "from 1") 1 2 10 20)
  <= Note.updated_at (Note.mk 1 "Update 1" (Some "from 1") 1 2 10 20).
Proof.
  apply (timestamps_ordered 0
           [(Sample.env 10 1,
             Request.Create Sample.alice (NoteCreate.mk "x" (Some "y")));
            (Sample.env 20 0, Request.Update Sample.alice 1 Sample.update_a)]).
  - simpl. lia.
  - simpl. left. reflexivity.
Defined.

Lemma register_then_login_witness :
  login_user Sample.verify_password Sample.create_access_token
    (UserLogin.mk "carol" "carolpass")
    (DB.mk [Sample.note1]
           [Sample.alice; Sample.bob; User.mk 3 "carol" "hash:carolpass" 60])
  = Return (Token.mk "token:carol" "bearer").
Proof.
  apply (register_then_login Fixture.hash_password Sample.verify_password
           Sample.create_access_token (Sample.env 60 3) "salt" Fixture.carol
           Sample.db1 "User created successfully" 3).
  - intros s p. unfold Sample.verify_password, Fixture.hash_password.
    apply String.eqb_refl.
  - reflexivity.
Defined.

Lemma register_duplicate_username_witness :
  register_user Fixture.hash_password (Sample.env 60 3) "salt"
    (UserCreate.mk "alice" "another") Sample.db1
  = (Raise (http_error 400 "Username already exists"), Sample.db1).
Proof.
  apply (register_duplicate_username Fixture.hash_password (Sample.env 60 3) "salt"
           (UserCreate.mk "alice" "another") Sample.db1 Sample.alice).
  - reflexivity.
  - simpl. left. reflexivity.
  - reflexivity.
Defined.

Lemma sample_usernames_unique : usernames_unique Sample.db1.
Proof.
  unfold usernames_unique. simpl.
  apply NoDup_cons. split; [|apply NoDup_singleton].
  intros H. apply list_elem_of_singleton in H. discriminate H.
Defined.

Lemma register_keeps_constraints_witness :
  usernames_unique
    (snd (register_user Fixture.hash_password (Sample.env 60 3) "salt"
            Fixture.carol Sample.db1)) /\
  DB.notes (snd (register_user Fixture.hash_password (Sample.env 60 3) "salt"
                   Fixture.carol Sample.db1)) = [Sample.note1].
Proof.
  destruct (register_keeps_constraints Fixture.hash_password (Sample.env 60 3)
              "salt" Fixture.carol Sample.db1) as (Hnames & _ & _ & Hnotes).
  - exact sample_usernames_unique.
  - simpl. apply NoDup_cons. split; [|apply NoDup_singleton].
    intros H. apply list_elem_of_singleton in H. discriminate H.
  - split; [exact Hnames|exact Hnotes].
Defined.

Lemma register_keeps_other_logins_witness :
  login_user Sample.verify_password Sample.create_access_token
    (UserLogin.mk "alice" "secret1")
    (snd (register_user Fixture.hash_password (Sample.env 60 3) "salt"
            Fixture.carol Sample.db1))
  = login_user Sample.verify_password Sample.create_access_token
      (UserLogin.mk "alice" "secret1") Sample.db1.
Proof.
  apply (register_keeps_other_logins Fixture.hash_password Sample.verify_password
           Sample.create_access_token (Sample.env 60 3) "salt" Fixture.carol
           (UserLogin.mk "alice" "secret1") Sample.db1).
  simpl. discriminate.
Defined.

Lemma login_succeeds_iff_witness :
  login_user Sample.verify_password Sample.create_access_token
    (UserLogin.mk "alice" "secret1") Sample.db1
  = Return (Token.mk "token:alice" "bearer").
Proof.
  apply (login_succeeds_iff Sample.verify_password Sample.create_access_token
           (UserLogin.mk "alice" "secret1") Sample.db1
           (Token.mk "token:alice" "bearer") sample_usernames_unique).
  exists Sample.alice. repeat split.
  simpl. left. reflexivity.
Defined.

Lemma list_and_get_agree_witness :
  In Fixture.note2 (get_user_notes Sample.bob Fixture.db2) <->
  get_note 2 Sample.bob Fixture.db2 = Return Fixture.note2.
Proof.
  apply (list_and_get_agree Sample.bob Fixture.db2 Fixture.note2).
  unfold pk_unique. simpl.
  apply NoDup_cons. split; [|apply NoDup_singleton].
  intros H. apply list_elem_of_singleton in H. discriminate H.
Defined.
